(** * Plan-It: session context and plan-state management

    A shallow embedding of the backend of the Plan-It conversational
    planning agent (backend/models.py, backend/context_manager.py,
    backend/agent.py, backend/server.py) together with the properties of
    its session handling.

    Conventions of the embedding:
    - Python [str] is [string]; [len] is [String.length] read in [Z].
      [str.lower] is modelled on ASCII letters.
    - Python truthiness ([if x:], [x or y]) is written out with [truthy]
      and [truthy_opt]: [None] and the empty string are falsy.
    - [dict] is [gmap string string]; the catalog of keywords, whose
      iteration order matters, is an association list.
    - the language model is an external collaborator: what it answers in a
      turn is an input of that turn ([TurnEnv]), so every statement holds
      for every possible behaviour of the model.
    - an exception that leaves a function is the [Raise] case of [result];
      a turn aborted by an exception has no result, and what the store
      holds after such a turn is not modelled.
    - a session is a value: the in-place updates of the source are
      written as successive [let]s ([session1], [session2], ...). *)

From Stdlib Require Import ZArith String Ascii List Lia.
From stdpp Require Import base option list gmap strings.

Local Open Scope string_scope.
Local Open Scope list_scope.
Local Open Scope Z_scope.

(** ** Python helpers *)

Inductive exn :=
| HTTPException (status_code : Z) (detail : string)
| Exception (msg : string).

Inductive result (A : Type) :=
| Ok (a : A)
| Raise (e : exn).
Arguments Ok {A} a.
Arguments Raise {A} e.

Definition bind {A B} (r : result A) (k : A -> result B) : result B :=
  match r with
  | Ok a => k a
  | Raise e => Raise e
  end.

Notation "x <- r ;; k" := (bind r (fun x => k))
  (at level 100, r at next level, right associativity).

Definition len (s : string) : Z := Z.of_nat (String.length s).

Definition truthy (s : string) : bool :=
  match s with
  | EmptyString => false
  | String _ _ => true
  end.

Definition truthy_opt (o : option string) : bool :=
  match o with
  | Some s => truthy s
  | None => false
  end.

(** [o or fallback] for an optional string. *)
Definition str_or (o : option string) (fallback : string) : string :=
  match o with
  | Some s => if truthy s then s else fallback
  | None => fallback
  end.

Definition ascii_lower (c : ascii) : ascii :=
  let n := N_of_ascii c in
  if ((65 <=? n) && (n <=? 90))%N then ascii_of_N (n + 32) else c.

Fixpoint lower (s : string) : string :=
  match s with
  | EmptyString => EmptyString
  | String c s' => String (ascii_lower c) (lower s')
  end.

(** [needle in hay] on strings: [needle] occurs as a contiguous block. *)
Fixpoint str_in (needle hay : string) : bool :=
  String.prefix needle hay ||
  match hay with
  | EmptyString => false
  | String _ hay' => str_in needle hay'
  end.

(** ** backend/models.py *)

Inductive StepStatus := PENDING | IN_PROGRESS | COMPLETED.

Record PlanStep := {
  id : string;
  step_title : string;
  description : string;
  status : StepStatus
}.

Record Plan := {
  title : string;
  overview : string;
  steps : list PlanStep
}.

Inductive ActionType := NONE | PROPOSE | CREATE | UPDATE.

Record AgentResponse := {
  thought : string;
  response_to_user : string;
  action : ActionType;
  plan : option Plan;
  ar_change_summary : option string;
  ar_plan_summary : option string;
  ar_conversation_summary : option string
}.

Inductive MessageRole := USER | ASSISTANT | SYSTEM.

Definition role_value (r : MessageRole) : string :=
  match r with
  | USER => "user"
  | ASSISTANT => "assistant"
  | SYSTEM => "system"
  end.

(** [timestamp] is the reading of the clock when the message is built. *)
Record Message := {
  role : MessageRole;
  content : string;
  timestamp : Z;
  is_blocked : bool
}.

Record PlanVersion := {
  version : Z;
  pv_plan : Plan;
  pv_change_summary : string;
  created_at : Z
}.

Record Session := {
  session_id : string;
  user_id : option string;
  plan_name : option string;
  messages : list Message;
  current_plan : option Plan;
  pending_plan : option Plan;
  plan_versions : list PlanVersion;
  user_preferences : gmap string string;
  compressed_context : option string;
  conversation_summary : option string;
  plan_summary : option string;
  change_summary : option string;
  turn_count : Z
}.

(** [Session(session_id=..., user_id=...)]: every other field at its default. *)
Definition new_session (sid uid : string) : Session :=
  {| session_id := sid; user_id := Some uid; plan_name := None;
     messages := []; current_plan := None; pending_plan := None;
     plan_versions := []; user_preferences := ∅;
     compressed_context := None; conversation_summary := None;
     plan_summary := None; change_summary := None; turn_count := 0 |}.

Record ChatRequest := {
  req_session_id : string;
  message : string
}.

Record ChatResponse := {
  response : string;
  cr_plan : option Plan;
  cr_action : ActionType;
  cr_change_summary : option string;
  cr_plan_summary : option string;
  cr_conversation_summary : option string;
  cr_turn_count : Z;
  plan_version : option Z;
  awaiting_confirmation : bool
}.

(** Field assignments on a session ([session.f = v]). *)
Definition set_messages (v : list Message) (s : Session) : Session :=
  {| session_id := session_id s; user_id := user_id s; plan_name := plan_name s;
     messages := v; current_plan := current_plan s; pending_plan := pending_plan s;
     plan_versions := plan_versions s; user_preferences := user_preferences s;
     compressed_context := compressed_context s;
     conversation_summary := conversation_summary s;
     plan_summary := plan_summary s; change_summary := change_summary s;
     turn_count := turn_count s |}.

Definition set_current_plan (v : option Plan) (s : Session) : Session :=
  {| session_id := session_id s; user_id := user_id s; plan_name := plan_name s;
     messages := messages s; current_plan := v; pending_plan := pending_plan s;
     plan_versions := plan_versions s; user_preferences := user_preferences s;
     compressed_context := compressed_context s;
     conversation_summary := conversation_summary s;
     plan_summary := plan_summary s; change_summary := change_summary s;
     turn_count := turn_count s |}.

Definition set_pending_plan (v : option Plan) (s : Session) : Session :=
  {| session_id := session_id s; user_id := user_id s; plan_name := plan_name s;
     messages := messages s; current_plan := current_plan s; pending_plan := v;
     plan_versions := plan_versions s; user_preferences := user_preferences s;
     compressed_context := compressed_context s;
     conversation_summary := conversation_summary s;
     plan_summary := plan_summary s; change_summary := change_summary s;
     turn_count := turn_count s |}.

Definition set_plan_versions (v : list PlanVersion) (s : Session) : Session :=
  {| session_id := session_id s; user_id := user_id s; plan_name := plan_name s;
     messages := messages s; current_plan := current_plan s;
     pending_plan := pending_plan s;
     plan_versions := v; user_preferences := user_preferences s;
     compressed_context := compressed_context s;
     conversation_summary := conversation_summary s;
     plan_summary := plan_summary s; change_summary := change_summary s;
     turn_count := turn_count s |}.

Definition set_user_preferences (v : gmap string string) (s : Session) : Session :=
  {| session_id := session_id s; user_id := user_id s; plan_name := plan_name s;
     messages := messages s; current_plan := current_plan s;
     pending_plan := pending_plan s;
     plan_versions := plan_versions s; user_preferences := v;
     compressed_context := compressed_context s;
     conversation_summary := conversation_summary s;
     plan_summary := plan_summary s; change_summary := change_summary s;
     turn_count := turn_count s |}.

Definition set_compressed_context (v : option string) (s : Session) : Session :=
  {| session_id := session_id s; user_id := user_id s; plan_name := plan_name s;
     messages := messages s; current_plan := current_plan s;
     pending_plan := pending_plan s;
     plan_versions := plan_versions s; user_preferences := user_preferences s;
     compressed_context := v;
     conversation_summary := conversation_summary s;
     plan_summary := plan_summary s; change_summary := change_summary s;
     turn_count := turn_count s |}.

Definition set_conversation_summary (v : option string) (s : Session) : Session :=
  {| session_id := session_id s; user_id := user_id s; plan_name := plan_name s;
     messages := messages s; current_plan := current_plan s;
     pending_plan := pending_plan s;
     plan_versions := plan_versions s; user_preferences := user_preferences s;
     compressed_context := compressed_context s;
     conversation_summary := v;
     plan_summary := plan_summary s; change_summary := change_summary s;
     turn_count := turn_count s |}.

Definition set_turn_count (v : Z) (s : Session) : Session :=
  {| session_id := session_id s; user_id := user_id s; plan_name := plan_name s;
     messages := messages s; current_plan := current_plan s;
     pending_plan := pending_plan s;
     plan_versions := plan_versions s; user_preferences := user_preferences s;
     compressed_context := compressed_context s;
     conversation_summary := conversation_summary s;
     plan_summary := plan_summary s; change_summary := change_summary s;
     turn_count := v |}.

(** ** backend/context_manager.py *)

Definition TOKEN_LIMIT : Z := 8000.
Definition CHARS_PER_TOKEN : Z := 4.
Definition CHAR_LIMIT : Z := TOKEN_LIMIT * CHARS_PER_TOKEN.

(** [int(CHAR_LIMIT * 0.75)]: 0.75 and the product are exact in binary
    floating point, so the truncation is that of three quarters. *)
Definition COMPRESSION_THRESHOLD : Z := (CHAR_LIMIT * 3) / 4.

(** The catalog in the iteration order of the source's dict literals. *)
Definition _PREFERENCE_KEYWORDS : list (string * list (string * string)) :=
  [ ("detail_level",
      [ ("detailed", "detailed"); ("brief", "brief"); ("concise", "brief");
        ("verbose", "detailed"); ("short", "brief") ]);
    ("tone",
      [ ("formal", "formal"); ("casual", "casual");
        ("professional", "formal"); ("friendly", "casual") ]) ].

(** The inner loop [for word, value in keywords.items()]. *)
Definition scan_keywords (lowered pref_key : string)
    (keywords : list (string * string)) (updated : gmap string string)
    : gmap string string :=
  fold_left
    (fun upd wv => if str_in wv.1 lowered then <[pref_key := wv.2]> upd else upd)
    keywords updated.

Definition extract_preferences (text : string) (existing : gmap string string)
    : gmap string string :=
  let lowered := lower text in
  let updated := existing in
  fold_left (fun upd kc => scan_keywords lowered kc.1 kc.2 upd)
    _PREFERENCE_KEYWORDS updated.

(** *** The same function on dict objects

    [dict(existing)] allocates a new object and the loop writes to that
    one only.  A store of dict objects, addressed by [nat], makes the
    identity of the two mappings visible. *)

Module Obj.

Definition dict_copy (h : gmap nat (gmap string string)) (a : nat)
    : gmap nat (gmap string string) * nat :=
  let a' := fresh (dom h) in
  (<[a' := default ∅ (h !! a)]> h, a').

Definition dict_setitem (a : nat) (k v : string)
    (h : gmap nat (gmap string string)) : gmap nat (gmap string string) :=
  alter (fun d => <[k := v]> d) a h.

Definition scan_keywords (lowered pref_key : string)
    (keywords : list (string * string)) (updated : nat)
    (h : gmap nat (gmap string string)) : gmap nat (gmap string string) :=
  fold_left
    (fun h' wv =>
       if str_in wv.1 lowered then dict_setitem updated pref_key wv.2 h' else h')
    keywords h.

Definition extract_preferences (text : string) (existing : nat)
    (h : gmap nat (gmap string string)) : gmap nat (gmap string string) * nat :=
  let lowered := lower text in
  let '(h1, updated) := dict_copy h existing in
  (fold_left (fun h' kc => scan_keywords lowered kc.1 kc.2 updated h')
     _PREFERENCE_KEYWORDS h1,
   updated).

End Obj.

(** *** Prompts

    The text of a prompt is opaque to the session logic: the model only
    keeps which pieces of the session are put into it. *)

Record ContextEntry := {
  ce_role : string;
  ce_content : string
}.

Inductive LcMessage :=
| SystemPromptMessage
| CurrentPlanMessage (p : Plan)
| PendingPlanMessage (p : Plan)
| PreferencesMessage (prefs : gmap string string)
| HumanMessage (c : string)
| AIMessage (c : string)
| SystemMessage (c : string).

(** The language model as it behaves during one turn: the plain
    completion used by [compress_history] (given the history, the plan
    and the preferences the prompt is built from) and the structured
    completion used by [generate_node].  Either may raise; the structured
    one may return nothing. *)
Record LLM := {
  summarize :
    list Message -> option Plan -> gmap string string -> result string;
  ainvoke_structured : list LcMessage -> result (option AgentResponse)
}.

Definition nl : string := String (ascii_of_nat 10) EmptyString.

Definition compress_history (msgs : list Message) (cur : option Plan)
    (prefs : gmap string string) (llm : LLM) : result string :=
  summarize llm msgs cur prefs.

Definition build_context_messages (session : Session) : list ContextEntry :=
  let context_parts :=
    (* If we have a compressed context, inject it as a system note first. *)
    match compressed_context session with
    | Some cc =>
        if truthy cc
        then [ {| ce_role := "system";
                  ce_content := "[Compressed prior context]" +:+ nl +:+ cc |} ]
        else []
    | None => []
    end in
  (* Append remaining messages (newest portion kept after compression). *)
  fold_left
    (fun parts msg =>
       if is_blocked msg then parts
       else parts ++ [ {| ce_role := role_value (role msg);
                          ce_content := content msg |} ])
    (messages session) context_parts.

Definition sum_Z (l : list Z) : Z := foldr Z.add 0 l.

Definition total_chars (session : Session) : Z :=
  let total := sum_Z (map (fun m => len (content m)) (messages session)) in
  match compressed_context session with
  | Some cc => if truthy cc then total + len cc else total
  | None => total
  end.

Definition keep_recent : nat := 4.

Definition messages_to_compress (session : Session) : list Message :=
  if (keep_recent <? length (messages session))%nat
  then take (length (messages session) - keep_recent)%nat (messages session)
  else [].

Definition recent_messages (session : Session) : list Message :=
  if (keep_recent <? length (messages session))%nat
  then drop (length (messages session) - keep_recent)%nat (messages session)
  else messages session.

Definition is_nil {A} (l : list A) : bool :=
  match l with
  | [] => true
  | _ :: _ => false
  end.

(** [now] is the clock reading taken for the synthetic digest message. *)
Definition maybe_compress (session : Session) (llm : LLM) (now : Z)
    : result Session :=
  if total_chars session <? COMPRESSION_THRESHOLD then Ok session
  else
    if is_nil (messages_to_compress session)
       && negb (truthy_opt (compressed_context session))
    then Ok session
    else
      let all_to_compress :=
        (match compressed_context session with
         | Some cc =>
             if truthy cc
             then [ {| role := SYSTEM;
                       content := "[Prior compressed context]: " +:+ cc;
                       timestamp := now; is_blocked := false |} ]
             else []
         | None => []
         end) ++ messages_to_compress session in
      compressed <- compress_history all_to_compress (current_plan session)
                      (user_preferences session) llm ;;
      Ok (set_messages (recent_messages session)
            (set_compressed_context (Some compressed) session)).

(** ** backend/agent.py *)

Record AgentState := {
  session : Session;
  user_input : string;
  agent_response : option AgentResponse;
  error : option string
}.

(** What a turn takes from outside the process: the language model and
    the clock readings stamped on the records the turn builds. *)
Record TurnEnv := {
  _get_llm : LLM;
  now_user : Z;
  now_digest : Z;
  now_reply : Z;
  now_version : Z
}.

Definition str_exn (e : exn) : string :=
  match e with
  | HTTPException _ detail => detail
  | Exception msg => msg
  end.

Definition preprocess_node (env : TurnEnv) (state : AgentState)
    : result AgentState :=
  let session0 := session state in
  let user_input := user_input state in
  (* Record the user message *)
  let session1 :=
    set_messages
      (messages session0 ++
       [ {| role := USER; content := user_input;
            timestamp := now_user env; is_blocked := false |} ])
      session0 in
  let session2 := set_turn_count (turn_count session1 + 1) session1 in
  (* Extract preferences *)
  let session3 :=
    set_user_preferences
      (extract_preferences user_input (user_preferences session2)) session2 in
  (* Compress if approaching token limit *)
  let llm := _get_llm env in
  session4 <- maybe_compress session3 llm (now_digest env) ;;
  Ok {| session := session4; user_input := user_input;
        agent_response := agent_response state; error := error state |}.

Definition lc_of_context (msg : ContextEntry) : list LcMessage :=
  if String.eqb (ce_role msg) "user" then [HumanMessage (ce_content msg)]
  else if String.eqb (ce_role msg) "assistant" then [AIMessage (ce_content msg)]
  else if String.eqb (ce_role msg) "system" then [SystemMessage (ce_content msg)]
  else [].

(** The messages [generate_node] hands to the model. *)
Definition lc_messages (session : Session) : list LcMessage :=
  let context := build_context_messages session in
  [SystemPromptMessage]
  (* Inject current plan context *)
  ++ match current_plan session with
     | Some p => [CurrentPlanMessage p]
     | None => []
     end
  (* Inject pending (proposed) plan if awaiting confirmation *)
  ++ match pending_plan session with
     | Some p => [PendingPlanMessage p]
     | None => []
     end
  (* Inject user preferences *)
  ++ (if bool_decide (user_preferences session = ∅) then []
      else [PreferencesMessage (user_preferences session)])
  (* Add conversation history *)
  ++ flat_map lc_of_context context.

Definition generate_node (env : TurnEnv) (state : AgentState) : AgentState :=
  let session := session state in
  let llm := _get_llm env in
  match ainvoke_structured llm (lc_messages session) with
  | Ok agent_resp =>
      {| session := session; user_input := user_input state;
         agent_response := agent_resp; error := None |}
  | Raise e =>
      {| session := session; user_input := user_input state;
         agent_response := agent_response state; error := Some (str_exn e) |}
  end.

Definition fallback : string :=
  "I'm sorry, I ran into an issue processing your request. Could you try rephrasing?".

(** [error or agent_resp is None] *)
Definition turn_failed (error : option string)
    (agent_resp : option AgentResponse) : bool :=
  truthy_opt error ||
  match agent_resp with
  | None => true
  | Some _ => false
  end.

(** The response on the path where that guard is false. *)
Definition usable_response (error : option string)
    (agent_resp : option AgentResponse) : option AgentResponse :=
  if turn_failed error agent_resp then None else agent_resp.

Definition new_version (session : Session) (agent_resp : AgentResponse)
    (p : Plan) (generic : string) (now : Z) : PlanVersion :=
  let version_num := Z.of_nat (length (plan_versions session)) + 1 in
  {| version := version_num; pv_plan := p;
     pv_change_summary := str_or (ar_change_summary agent_resp) generic;
     created_at := now |}.

(** The three branches on [agent_resp.action] and [agent_resp.plan]. *)
Definition apply_action (env : TurnEnv) (agent_resp : AgentResponse)
    (session : Session) : Session :=
  match action agent_resp, plan agent_resp with
  | PROPOSE, Some p =>
      (* Store as pending, do NOT finalize yet *)
      set_pending_plan (Some p) session
  | CREATE, Some p =>
      (* User confirmed, promote to current plan *)
      let session1 := set_current_plan (Some p) session in
      let session2 := set_pending_plan None session1 in
      set_plan_versions
        (plan_versions session2 ++
         [new_version session2 agent_resp p "Plan confirmed and created."
            (now_version env)])
        session2
  | UPDATE, Some p =>
      let session1 := set_current_plan (Some p) session in
      set_plan_versions
        (plan_versions session1 ++
         [new_version session1 agent_resp p "Plan updated." (now_version env)])
        session1
  | _, _ => session
  end.

Definition append_assistant (env : TurnEnv) (text : string) (session : Session)
    : Session :=
  set_messages
    (messages session ++
     [ {| role := ASSISTANT; content := text;
          timestamp := now_reply env; is_blocked := false |} ])
    session.

Definition postprocess_node (env : TurnEnv) (state : AgentState) : AgentState :=
  let session0 := session state in
  let agent_resp := agent_response state in
  let error := error state in
  match usable_response error agent_resp with
  | None =>
      (* Record a fallback assistant message *)
      {| session := append_assistant env fallback session0;
         user_input := user_input state;
         agent_response := agent_response state; error := error |}
  | Some agent_resp' =>
      (* Record the assistant reply *)
      let session1 :=
        append_assistant env (response_to_user agent_resp') session0 in
      (* Handle plan propose / create / update *)
      let session2 := apply_action env agent_resp' session1 in
      (* Persist the rolling conversation summary *)
      let session3 :=
        if truthy_opt (ar_conversation_summary agent_resp')
        then set_conversation_summary (ar_conversation_summary agent_resp')
               session2
        else session2 in
      {| session := session3; user_input := user_input state;
         agent_response := agent_response state; error := error |}
  end.

Definition run_agent (env : TurnEnv) (session0 : Session) (user_input : string)
    : result (Session * option AgentResponse * option string) :=
  let initial_state :=
    {| session := session0; user_input := user_input;
       agent_response := None; error := None |} in
  st1 <- preprocess_node env initial_state ;;
  let st2 := generate_node env st1 in
  let st3 := postprocess_node env st2 in
  Ok (session st3, agent_response st3, error st3).

(** ** backend/session_store.py and backend/server.py *)

Record User := {
  u_user_id : string;
  email : string
}.

(** [InMemorySessionStore.save] *)
Definition save (session : Session) (store : gmap string Session)
    : gmap string Session :=
  <[session_id session := session]> store.

Definition versions_count (session : Session) : option Z :=
  if is_nil (plan_versions session) then None
  else Some (Z.of_nat (length (plan_versions session))).

Definition is_Some_b {A} (o : option A) : bool :=
  match o with
  | Some _ => true
  | None => false
  end.

Definition chat (env : TurnEnv) (store : gmap string Session)
    (req : ChatRequest) (user : User)
    : result (gmap string Session * ChatResponse) :=
  match store !! req_session_id req with
  | None =>
      Raise (HTTPException 404
               "Session not found. Create one first via POST /session.")
  | Some session0 =>
      if bool_decide (user_id session0 = Some (u_user_id user)) then
        r <- run_agent env session0 (message req) ;;
        let '(updated_session, agent_resp, error) := r in
        (* Persist updated session *)
        let store' := save updated_session store in
        match usable_response error agent_resp with
        | None =>
            Ok (store',
                {| response := "Sorry, something went wrong. Please try again.";
                   cr_plan := current_plan updated_session;
                   cr_action := NONE;
                   cr_change_summary := None;
                   cr_plan_summary := None;
                   cr_conversation_summary :=
                     conversation_summary updated_session;
                   cr_turn_count := turn_count updated_session;
                   plan_version := versions_count updated_session;
                   awaiting_confirmation := false |})
        | Some agent_resp' =>
            Ok (store',
                {| response := response_to_user agent_resp';
                   cr_plan :=
                     match action agent_resp' with
                     | NONE => current_plan updated_session
                     | _ => plan agent_resp'
                     end;
                   cr_action := action agent_resp';
                   cr_change_summary := ar_change_summary agent_resp';
                   cr_plan_summary := ar_plan_summary agent_resp';
                   cr_conversation_summary :=
                     ar_conversation_summary agent_resp';
                   cr_turn_count := turn_count updated_session;
                   plan_version := versions_count updated_session;
                   awaiting_confirmation :=
                     is_Some_b (pending_plan updated_session) |})
        end
      else Raise (HTTPException 403 "Access denied.")
  end.

(** An entry of the history listing; [h_timestamp] stands for the ISO
    rendering of the message's timestamp. *)
Record HistoryEntry := {
  h_role : string;
  h_content : string;
  h_timestamp : Z
}.

Definition get_history (store : gmap string Session) (sid : string)
    (user : User) : result (list HistoryEntry) :=
  match store !! sid with
  | None => Raise (HTTPException 404 "Session not found.")
  | Some session0 =>
      if bool_decide (user_id session0 = Some (u_user_id user)) then
        Ok (map (fun m => {| h_role := role_value (role m);
                             h_content := content m;
                             h_timestamp := timestamp m |})
                (messages session0))
      else Raise (HTTPException 403 "Access denied.")
  end.

(** * Properties *)

(** ** Applying a decision ([postprocess_node]) *)

(** The plan state of a session: the three fields the action table is about. *)
Definition plan_state (s : Session)
    : option Plan * option Plan * list PlanVersion :=
  (current_plan s, pending_plan s, plan_versions s).

Lemma usable_response_Some error r :
  truthy_opt error = false -> usable_response error (Some r) = Some r.
Proof. intros H. unfold usable_response, turn_failed. now rewrite H. Qed.


Lemma postprocess_node_ok env state r :
  agent_response state = Some r ->
  truthy_opt (error state) = false ->
  session (postprocess_node env state) =
    (if truthy_opt (ar_conversation_summary r)
     then set_conversation_summary (ar_conversation_summary r)
     else fun s => s)
      (apply_action env r
         (append_assistant env (response_to_user r) (session state))).
Proof.
  intros Hr He. unfold postprocess_node.
  rewrite Hr, (usable_response_Some _ _ He). simpl.
  now destruct (truthy_opt (ar_conversation_summary r)).
Qed.


(** C1: for a structured decision that carries a plan, [postprocess_node]
    follows the action table.  PROPOSE stores the plan as [pending_plan]
    and leaves [current_plan] as it was; CREATE stores it as
    [current_plan] and clears [pending_plan]; UPDATE stores it as
    [current_plan] and leaves [pending_plan] as it was. *)
Theorem postprocess_action_table env state r p :
  agent_response state = Some r ->
  truthy_opt (error state) = false ->
  plan r = Some p ->
  let s := session state in
  let s' := session (postprocess_node env state) in
  (action r = PROPOSE ->
     pending_plan s' = Some p /\ current_plan s' = current_plan s) /\
  (action r = CREATE ->
     current_plan s' = Some p /\ pending_plan s' = None) /\
  (action r = UPDATE ->
     current_plan s' = Some p /\ pending_plan s' = pending_plan s).
Proof.
  intros Hr He Hp s s'. subst s s'.
  rewrite (postprocess_node_ok _ _ _ Hr He).
  unfold apply_action. rewrite Hp.
  split; [|split]; intros Ha; rewrite Ha;
    now destruct (truthy_opt (ar_conversation_summary r)).
Qed.

Definition demo_plan : Plan :=
  {| title := "Trip"; overview := "Three days in Lisbon";
     steps := [ {| id := "step-1"; step_title := "Book";
                   description := "Book the flights"; status := PENDING |} ] |}.

Definition demo_response (a : ActionType) (p : option Plan) : AgentResponse :=
  {| thought := "t"; response_to_user := "Here is the plan."; action := a;
     plan := p; ar_change_summary := Some "Initial draft";
     ar_plan_summary := None; ar_conversation_summary := Some "Planning a trip" |}.

Definition silent_llm : LLM :=
  {| summarize := fun _ _ _ => Ok "digest";
     ainvoke_structured := fun _ => Ok None |}.

Definition demo_env : TurnEnv :=
  {| _get_llm := silent_llm; now_user := 1; now_digest := 2;
     now_reply := 3; now_version := 4 |}.

Definition demo_state (a : ActionType) (p : option Plan) : AgentState :=
  {| session := new_session "s1" "u1"; user_input := "go ahead";
     agent_response := Some (demo_response a p); error := None |}.

Lemma postprocess_action_table_witness :
  let s' := session (postprocess_node demo_env (demo_state CREATE (Some demo_plan))) in
  current_plan s' = Some demo_plan /\ pending_plan s' = None.
Proof.
  destruct (postprocess_action_table demo_env
              (demo_state CREATE (Some demo_plan))
              (demo_response CREATE (Some demo_plan)) demo_plan
              eq_refl eq_refl eq_refl) as [_ [Hcreate _]].
  exact (Hcreate eq_refl).
Defined.

(** C10: a PROPOSE, CREATE or UPDATE decision whose plan is absent is
    applied without raising and without touching the plan state: the
    session afterwards is the session before with the assistant message
    appended and, when the decision has one, the conversation summary
    overwritten; [current_plan], [pending_plan] and [plan_versions] are
    unchanged. *)
Theorem postprocess_missing_plan env state r :
  agent_response state = Some r ->
  truthy_opt (error state) = false ->
  action r <> NONE ->
  plan r = None ->
  let s := session state in
  let s' := session (postprocess_node env state) in
  s' = (if truthy_opt (ar_conversation_summary r)
        then set_conversation_summary (ar_conversation_summary r)
        else fun s => s)
         (append_assistant env (response_to_user r) s) /\
  current_plan s' = current_plan s /\
  pending_plan s' = pending_plan s /\
  plan_versions s' = plan_versions s.
Proof.
  intros Hr He _ Hp s s'. subst s s'.
  rewrite (postprocess_node_ok _ _ _ Hr He).
  assert (Ha : forall x, apply_action env r x = x).
  { intros x. unfold apply_action. rewrite Hp. now destruct (action r). }
  rewrite Ha. split; [reflexivity|].
  now destruct (truthy_opt (ar_conversation_summary r)).
Qed.

Lemma postprocess_missing_plan_witness :
  plan_versions (session (postprocess_node demo_env (demo_state CREATE None))) = [].
Proof.
  assert (Hact : action (demo_response CREATE None) <> NONE) by discriminate.
  destruct (postprocess_missing_plan demo_env (demo_state CREATE None)
              (demo_response CREATE None) eq_refl eq_refl Hact eq_refl)
    as (_ & _ & _ & Hversions).
  exact Hversions.
Defined.

(** ** What each stage leaves alone *)

Lemma maybe_compress_cases s llm now s' :
  maybe_compress s llm now = Ok s' ->
  (s' = s /\
   (total_chars s < COMPRESSION_THRESHOLD \/
    (is_nil (messages_to_compress s) = true /\
     truthy_opt (compressed_context s) = false))) \/
  exists compressed,
    summarize llm
      ((match compressed_context s with
        | Some cc =>
            if truthy cc
            then [ {| role := SYSTEM;
                      content := "[Prior compressed context]: " +:+ cc;
                      timestamp := now; is_blocked := false |} ]
            else []
        | None => []
        end) ++ messages_to_compress s)
      (current_plan s) (user_preferences s) = Ok compressed /\
    s' = set_messages (recent_messages s)
           (set_compressed_context (Some compressed) s).
Proof.
  unfold maybe_compress, compress_history.
  destruct (Z.ltb_spec (total_chars s) COMPRESSION_THRESHOLD) as [Hlt|_].
  { intros [= <-]. left. split; [reflexivity | now left]. }
  destruct (is_nil (messages_to_compress s)) eqn:Hnil;
    destruct (truthy_opt (compressed_context s)) eqn:Hcc; simpl.
  2:{ intros [= <-]. left. split; [reflexivity | now right]. }
  all: destruct (summarize llm _ _ _) as [compressed|e] eqn:Hsum; simpl;
    [intros [= <-]; right; now exists compressed | discriminate].
Qed.

Lemma maybe_compress_frame s llm now s' :
  maybe_compress s llm now = Ok s' ->
  plan_state s' = plan_state s /\ turn_count s' = turn_count s.
Proof.
  intros H.
  destruct (maybe_compress_cases _ _ _ _ H) as [[-> _]|(c & _ & ->)];
    now split.
Qed.

Lemma preprocess_node_frame env state st' :
  preprocess_node env state = Ok st' ->
  plan_state (session st') = plan_state (session state) /\
  turn_count (session st') = turn_count (session state) + 1.
Proof.
  unfold preprocess_node.
  destruct (maybe_compress _ _ _) as [s4|e] eqn:Hc; simpl; [|discriminate].
  intros [= <-]. simpl.
  destruct (maybe_compress_frame _ _ _ _ Hc) as [Hp Ht].
  rewrite Hp, Ht. now split.
Qed.

Lemma generate_node_session env state :
  session (generate_node env state) = session state.
Proof. unfold generate_node. now destruct (ainvoke_structured _ _). Qed.

Lemma postprocess_node_turn_count env state :
  turn_count (session (postprocess_node env state)) = turn_count (session state).
Proof.
  unfold postprocess_node.
  destruct (usable_response _ _) as [r|]; simpl; [|reflexivity].
  destruct (truthy_opt (ar_conversation_summary r)); simpl;
    unfold apply_action; destruct (action r), (plan r); reflexivity.
Qed.

(** ** Version numbering *)

Definition dense (pvs : list PlanVersion) : Prop :=
  forall (i : nat) (pv : PlanVersion),
    pvs !! i = Some pv -> version pv = Z.of_nat i + 1.

Lemma dense_nil : dense [].
Proof. intros i pv H. now rewrite lookup_nil in H. Qed.

Lemma dense_snoc pvs pv :
  dense pvs -> version pv = Z.of_nat (length pvs) + 1 -> dense (pvs ++ [pv]).
Proof.
  intros Hd Hv i x Hx.
  destruct (Nat.lt_ge_cases i (length pvs)) as [Hlt|Hge].
  - rewrite lookup_app_l in Hx by exact Hlt. now apply Hd.
  - rewrite lookup_app_r in Hx by exact Hge.
    destruct (i - length pvs)%nat as [|k] eqn:Hk; simpl in Hx.
    + injection Hx as <-. rewrite Hv. f_equal. lia.
    + now rewrite lookup_nil in Hx.
Qed.

(** A decision that appends a version: usable, CREATE or UPDATE, with a plan. *)
Definition appends_version (agent_resp : option AgentResponse)
    (error : option string) : bool :=
  match usable_response error agent_resp with
  | Some r =>
      match action r, plan r with
      | CREATE, Some _ | UPDATE, Some _ => true
      | _, _ => false
      end
  | None => false
  end.

Lemma postprocess_node_versions env state :
  let s := session state in
  let s' := session (postprocess_node env state) in
  if appends_version (agent_response state) (error state)
  then exists pv, plan_versions s' = plan_versions s ++ [pv] /\
                  version pv = Z.of_nat (length (plan_versions s)) + 1
  else plan_versions s' = plan_versions s.
Proof.
  unfold postprocess_node, appends_version.
  destruct (usable_response _ _) as [r|]; simpl; [|reflexivity].
  unfold apply_action.
  destruct (action r), (plan r) as [p|];
    destruct (truthy_opt (ar_conversation_summary r)); simpl;
    try reflexivity; eexists; split; reflexivity.
Qed.

Lemma postprocess_node_dense env state :
  dense (plan_versions (session state)) ->
  dense (plan_versions (session (postprocess_node env state))).
Proof.
  intros Hd. pose proof (postprocess_node_versions env state) as H. simpl in H.
  destruct (appends_version _ _).
  - destruct H as (pv & -> & Hv). now apply dense_snoc.
  - now rewrite H.
Qed.

(** ** Sequences of turns on one session

    [run_turns] feeds a session through consecutive turns, each with its
    own environment and user input, as consecutive calls of the chat
    endpoint do.  Besides the final session it returns what [run_agent]
    reported for each turn. *)
Fixpoint run_turns (s : Session) (turns : list (TurnEnv * string))
    : result (Session * list (option AgentResponse * option string)) :=
  match turns with
  | [] => Ok (s, [])
  | (env, user_input) :: rest =>
      r <- run_agent env s user_input ;;
      r' <- run_turns r.1.1 rest ;;
      Ok (r'.1, (r.1.2, r.2) :: r'.2)
  end.

Definition count_applied (log : list (option AgentResponse * option string))
    : nat :=
  length (List.filter (fun o => appends_version o.1 o.2) log).

Lemma run_agent_inv env s user_input s' agent_resp err :
  run_agent env s user_input = Ok (s', agent_resp, err) ->
  exists st1,
    preprocess_node env
      {| session := s; user_input := user_input;
         agent_response := None; error := None |} = Ok st1 /\
    s' = session (postprocess_node env (generate_node env st1)) /\
    agent_resp = agent_response (generate_node env st1) /\
    err = error (generate_node env st1).
Proof.
  unfold run_agent.
  destruct (preprocess_node _ _) as [st1|e]; simpl; [|discriminate].
  intros [= <- <- <-]. exists st1. repeat split.
  - unfold postprocess_node. now destruct (usable_response _ _).
  - unfold postprocess_node. now destruct (usable_response _ _).
Qed.

Lemma run_agent_turn_count env s user_input s' agent_resp err :
  run_agent env s user_input = Ok (s', agent_resp, err) ->
  turn_count s' = turn_count s + 1.
Proof.
  intros H. destruct (run_agent_inv _ _ _ _ _ _ H) as (st1 & Hpre & -> & _).
  rewrite postprocess_node_turn_count, generate_node_session.
  now destruct (preprocess_node_frame _ _ _ Hpre) as [_ ->].
Qed.

Lemma run_agent_versions env s user_input s' agent_resp err :
  run_agent env s user_input = Ok (s', agent_resp, err) ->
  dense (plan_versions s) ->
  dense (plan_versions s') /\
  length (plan_versions s') =
    (length (plan_versions s) +
     if appends_version agent_resp err then 1 else 0)%nat.
Proof.
  intros H Hd.
  destruct (run_agent_inv _ _ _ _ _ _ H) as (st1 & Hpre & -> & -> & ->).
  destruct (preprocess_node_frame _ _ _ Hpre) as [Hps _].
  assert (Hpv : plan_versions (session (generate_node env st1)) = plan_versions s).
  { rewrite generate_node_session. now injection Hps. }
  split.
  - apply postprocess_node_dense. now rewrite Hpv.
  - pose proof (postprocess_node_versions env (generate_node env st1)) as Hv.
    simpl in Hv. rewrite Hpv in Hv.
    destruct (appends_version _ _).
    + destruct Hv as (pv & -> & _). rewrite length_app. simpl. lia.
    + rewrite Hv. lia.
Qed.

Lemma run_turns_versions turns : forall s s' log,
  dense (plan_versions s) ->
  run_turns s turns = Ok (s', log) ->
  dense (plan_versions s') /\
  length (plan_versions s') = (length (plan_versions s) + count_applied log)%nat.
Proof.
  induction turns as [|[env user_input] rest IH]; intros s s' log Hd H; simpl in H.
  - injection H as <- <-. split; [exact Hd | unfold count_applied; simpl; lia].
  - destruct (run_agent env s user_input) as [[[s1 r1] e1]|e] eqn:Hrun;
      simpl in H; [|discriminate].
    destruct (run_turns s1 rest) as [[s2 log2]|e] eqn:Hrest;
      simpl in H; [|discriminate].
    injection H as <- <-.
    destruct (run_agent_versions _ _ _ _ _ _ Hrun Hd) as [Hd1 Hl1].
    destruct (IH _ _ _ Hd1 Hrest) as [Hd2 Hl2].
    split; [exact Hd2|]. rewrite Hl2, Hl1. unfold count_applied. simpl.
    destruct (appends_version r1 e1); simpl; lia.
Qed.

(** C2: the version numbers of a session are dense and 1-based,
    [plan_versions[i].version = i + 1].  Ingest ([preprocess_node]),
    compression ([maybe_compress]) and apply ([postprocess_node], whatever
    the decision or failure) each preserve this, and in every session
    reached from a new one by completed turns the length of
    [plan_versions] is the number of turns whose decision was applied as a
    CREATE or an UPDATE (a usable response with that action and a plan). *)
Theorem plan_versions_dense_and_counted :
  (forall env state st',
     dense (plan_versions (session state)) ->
     preprocess_node env state = Ok st' ->
     dense (plan_versions (session st'))) /\
  (forall s llm now s',
     dense (plan_versions s) ->
     maybe_compress s llm now = Ok s' ->
     dense (plan_versions s')) /\
  (forall env state,
     dense (plan_versions (session state)) ->
     dense (plan_versions (session (postprocess_node env state)))) /\
  (forall sid uid turns s' log,
     run_turns (new_session sid uid) turns = Ok (s', log) ->
     dense (plan_versions s') /\
     length (plan_versions s') = count_applied log).
Proof.
  split; [|split; [|split]].
  - intros env state st' Hd H.
    destruct (preprocess_node_frame _ _ _ H) as [Hp _].
    injection Hp as _ _ ->. exact Hd.
  - intros s llm now s' Hd H.
    destruct (maybe_compress_frame _ _ _ _ H) as [Hp _].
    injection Hp as _ _ ->. exact Hd.
  - intros env state. apply postprocess_node_dense.
  - intros sid uid turns s' log H.
    destruct (run_turns_versions turns (new_session sid uid) _ _ dense_nil H)
      as [Hd Hl].
    split; [exact Hd | exact Hl].
Qed.

(** A model that proposes a plan, then confirms it, then fails. *)
Definition scripted_llm (d : result (option AgentResponse)) : LLM :=
  {| summarize := fun _ _ _ => Ok "digest";
     ainvoke_structured := fun _ => d |}.

Definition scripted_env (d : result (option AgentResponse)) : TurnEnv :=
  {| _get_llm := scripted_llm d; now_user := 1; now_digest := 2;
     now_reply := 3; now_version := 4 |}.

Definition demo_turns : list (TurnEnv * string) :=
  [ (scripted_env (Ok (Some (demo_response PROPOSE (Some demo_plan)))),
     "I want a brief plan for a trip");
    (scripted_env (Ok (Some (demo_response CREATE (Some demo_plan)))),
     "looks good, go ahead");
    (scripted_env (Raise (Exception "503 model overloaded")), "add a museum");
    (scripted_env (Ok (Some (demo_response UPDATE (Some demo_plan)))),
     "add a museum") ].

Definition get_ok {A} (r : result A) (d : A) : A :=
  match r with
  | Ok a => a
  | Raise _ => d
  end.

Definition demo_run : Session * list (option AgentResponse * option string) :=
  get_ok (run_turns (new_session "s1" "u1") demo_turns)
         (new_session "s1" "u1", []).

Lemma plan_versions_dense_and_counted_witness :
  length (plan_versions demo_run.1) = 2%nat /\
  dense (plan_versions demo_run.1) /\
  length (plan_versions demo_run.1) = count_applied demo_run.2.
Proof.
  split; [vm_compute; reflexivity|].
  destruct plan_versions_dense_and_counted as (_ & _ & _ & Hreach).
  assert (Hrun : run_turns (new_session "s1" "u1") demo_turns
                 = Ok (demo_run.1, demo_run.2)) by (vm_compute; reflexivity).
  exact (Hreach "s1" "u1" demo_turns demo_run.1 demo_run.2 Hrun).
Defined.

(** ** Turn counting *)

(** The summarisation call returns, whatever it is asked. *)
Definition summarizer_returns (llm : LLM) : Prop :=
  forall msgs cur prefs, exists t, summarize llm msgs cur prefs = Ok t.

Lemma maybe_compress_returns s llm now :
  summarizer_returns llm -> exists s', maybe_compress s llm now = Ok s'.
Proof.
  intros Hs. unfold maybe_compress, compress_history.
  destruct (total_chars s <? COMPRESSION_THRESHOLD); [now eexists|].
  destruct (is_nil _ && _); [now eexists|].
  match goal with
  | |- context [summarize llm ?m ?c ?p] => destruct (Hs m c p) as [t ->]
  end.
  simpl. now eexists.
Qed.

Lemma run_agent_returns env s user_input :
  summarizer_returns (_get_llm env) ->
  exists s' agent_resp err, run_agent env s user_input = Ok (s', agent_resp, err).
Proof.
  intros Hs. unfold run_agent, preprocess_node.
  match goal with
  | |- context [maybe_compress ?x ?l ?n] =>
      destruct (maybe_compress_returns x l n Hs) as [s4 ->]
  end.
  simpl. now do 3 eexists.
Qed.

Lemma run_turns_turn_count turns : forall s s' log,
  run_turns s turns = Ok (s', log) ->
  turn_count s' = turn_count s + Z.of_nat (length turns).
Proof.
  induction turns as [|[env user_input] rest IH]; intros s s' log H; simpl in H.
  - injection H as <- _. simpl. lia.
  - destruct (run_agent env s user_input) as [[[s1 r1] e1]|e] eqn:Hrun;
      simpl in H; [|discriminate].
    destruct (run_turns s1 rest) as [[s2 log2]|e] eqn:Hrest;
      simpl in H; [|discriminate].
    injection H as <- _.
    rewrite (IH _ _ _ Hrest), (run_agent_turn_count _ _ _ _ _ _ Hrun).
    simpl length. lia.
Qed.

Lemma run_turns_returns turns : forall s,
  Forall (fun t => summarizer_returns (_get_llm t.1)) turns ->
  exists s' log, run_turns s turns = Ok (s', log).
Proof.
  induction turns as [|[env user_input] rest IH]; intros s Hall; simpl.
  - now do 2 eexists.
  - apply Forall_cons in Hall as [Henv Hrest].
    destruct (run_agent_returns env s user_input Henv) as (s1 & r1 & e1 & ->).
    simpl. destruct (IH s1 Hrest) as (s2 & log2 & ->). simpl.
    now do 2 eexists.
Qed.

(** C3: [turn_count] grows by exactly one per processed user message.
    Whatever the structured-decision call does in each turn (answer,
    return nothing, raise), a run of [n] turns that the summarisation
    call does not abort ends with [turn_count] increased by [n]; such a
    run exists whenever the summarisation calls return; and from a new
    session [turn_count] is [n]. *)
Theorem turn_count_counts_turns s turns :
  (forall s' log,
     run_turns s turns = Ok (s', log) ->
     turn_count s' = turn_count s + Z.of_nat (length turns)) /\
  (Forall (fun t => summarizer_returns (_get_llm t.1)) turns ->
   exists s' log,
     run_turns s turns = Ok (s', log) /\
     turn_count s' = turn_count s + Z.of_nat (length turns) /\
     (forall sid uid, s = new_session sid uid ->
        turn_count s' = Z.of_nat (length turns))).
Proof.
  split.
  - apply run_turns_turn_count.
  - intros Hall. destruct (run_turns_returns turns s Hall) as (s' & log & H).
    exists s', log. split; [exact H|].
    pose proof (run_turns_turn_count _ _ _ _ H) as Ht.
    split; [exact Ht|]. intros sid uid ->. rewrite Ht. simpl. lia.
Qed.

Lemma scripted_llm_returns d : summarizer_returns (scripted_llm d).
Proof. intros msgs cur prefs. exists "digest". reflexivity. Qed.

Lemma turn_count_counts_turns_witness :
  exists s' log,
    run_turns (new_session "s1" "u1") demo_turns = Ok (s', log) /\
    turn_count s' = 4.
Proof.
  assert (Hall : Forall (fun t => summarizer_returns (_get_llm t.1)) demo_turns).
  { repeat constructor; apply scripted_llm_returns. }
  destruct (turn_count_counts_turns (new_session "s1" "u1") demo_turns)
    as [_ Hrun].
  destruct (Hrun Hall) as (s' & log & H & _ & Hn).
  exists s', log. split; [exact H|]. exact (Hn "s1" "u1" eq_refl).
Defined.

(** ** Degraded turns *)

Definition chat_fallback : string :=
  "Sorry, something went wrong. Please try again.".




Definition demo_store : gmap string Session :=
  save (new_session "s1" "u1") ∅.

Definition demo_user : User := {| u_user_id := "u1"; email := "u1@example.org" |}.

Definition failing_env : TurnEnv :=
  scripted_env (Raise (Exception "503 model overloaded")).



(** ** Compression *)

Fixpoint replicate_str (n : nat) (c : ascii) : string :=
  match n with
  | O => EmptyString
  | S n' => String c (replicate_str n' c)
  end.

(** A message of [n] characters. *)
Definition message_of_len (r : MessageRole) (n : Z) : Message :=
  {| role := r; content := replicate_str (Z.to_nat n) "a"%char;
     timestamp := 0; is_blocked := false |}.

Definition session_with (msgs : list Message) (cc : option string) : Session :=
  set_compressed_context cc (set_messages msgs (new_session "s1" "u1")).

Definition summary_llm (t : result string) : LLM :=
  {| summarize := fun _ _ _ => t; ainvoke_structured := fun _ => Ok None |}.

Definition lens (msgs : list Message) : list Z :=
  map (fun m => len (content m)) msgs.

Lemma length_replicate_str n c : String.length (replicate_str n c) = n.
Proof. induction n as [|n IH]; simpl; [reflexivity | now rewrite IH]. Qed.

Lemma lens_cons_of_len r n msgs :
  0 <= n -> lens (message_of_len r n :: msgs) = n :: lens msgs.
Proof.
  intros Hn. unfold lens, message_of_len, len. simpl.
  rewrite length_replicate_str. f_equal. lia.
Qed.

Lemma is_blocked_message_of_len r n : is_blocked (message_of_len r n) = false.
Proof. reflexivity. Qed.

(** From here on the long messages are only handled through their length. *)
Global Opaque message_of_len.

Lemma len_message_of_len r n : 0 <= n -> len (content (message_of_len r n)) = n.
Proof.
  intros Hn. pose proof (lens_cons_of_len r n [] Hn) as Hl.
  unfold lens in Hl. cbn [map] in Hl. now injection Hl.
Qed.

Lemma total_chars_session_with msgs cc :
  total_chars (session_with msgs cc) =
  sum_Z (lens msgs) + (if truthy_opt cc then len (default "" cc) else 0).
Proof.
  unfold total_chars, session_with, lens. simpl.
  destruct cc as [c|]; simpl; [destruct (truthy c)|]; lia.
Qed.

Lemma falsy_digest_prefix (cc : option string) (now : Z) :
  truthy_opt cc = false ->
  match cc with
  | Some c =>
      if truthy c
      then [ {| role := SYSTEM; content := "[Prior compressed context]: " +:+ c;
                timestamp := now; is_blocked := false |} ]
      else []
  | None => []
  end = [].
Proof. destruct cc as [c|]; simpl; [|reflexivity]. now intros ->. Qed.

Lemma recent_messages_length s : (length (recent_messages s) <= keep_recent)%nat.
Proof.
  unfold recent_messages.
  destruct (keep_recent <? length (messages s))%nat eqn:H.
  - apply Nat.ltb_lt in H. rewrite length_drop. lia.
  - apply Nat.ltb_ge in H. exact H.
Qed.

Lemma short_history_nothing_older s :
  (length (messages s) <= keep_recent)%nat ->
  messages_to_compress s = [] /\ recent_messages s = messages s.
Proof.
  intros H. unfold messages_to_compress, recent_messages.
  now rewrite (proj2 (Nat.ltb_ge _ _) H).
Qed.

Lemma long_history_split s :
  (keep_recent < length (messages s))%nat ->
  messages_to_compress s
    = take (length (messages s) - keep_recent) (messages s) /\
  recent_messages s
    = drop (length (messages s) - keep_recent) (messages s) /\
  is_nil (messages_to_compress s) = false.
Proof.
  intros H. unfold messages_to_compress, recent_messages.
  rewrite (proj2 (Nat.ltb_lt _ _) H). repeat split.
  destruct (take _ _) as [|m l] eqn:Htake; [|reflexivity].
  apply (f_equal length) in Htake. rewrite length_take in Htake. simpl in Htake.
  unfold keep_recent in *. lia.
Qed.

(** The first guard: below the threshold nothing happens. *)
Lemma maybe_compress_below s llm now :
  total_chars s < COMPRESSION_THRESHOLD -> maybe_compress s llm now = Ok s.
Proof.
  intros H. unfold maybe_compress.
  now rewrite (proj2 (Z.ltb_lt _ _) H).
Qed.

(** The second guard: nothing older than the window and no digest. *)
Lemma maybe_compress_nothing_useful s llm now :
  (length (messages s) <= keep_recent)%nat ->
  truthy_opt (compressed_context s) = false ->
  maybe_compress s llm now = Ok s.
Proof.
  intros Hlen Hcc. unfold maybe_compress.
  destruct (short_history_nothing_older s Hlen) as [-> _].
  rewrite Hcc. simpl. now destruct (_ <? _).
Qed.

(** Past both guards the summariser is called on the old digest (if any)
    followed by the messages older than the window. *)
Lemma maybe_compress_summarises s llm now :
  COMPRESSION_THRESHOLD <= total_chars s ->
  is_nil (messages_to_compress s) = false
  \/ truthy_opt (compressed_context s) = true ->
  maybe_compress s llm now =
    (compressed <-
       summarize llm
         ((match compressed_context s with
           | Some cc =>
               if truthy cc
               then [ {| role := SYSTEM;
                         content := "[Prior compressed context]: " +:+ cc;
                         timestamp := now; is_blocked := false |} ]
               else []
           | None => []
           end) ++ messages_to_compress s)
         (current_plan s) (user_preferences s) ;;
     Ok (set_messages (recent_messages s)
           (set_compressed_context (Some compressed) s))).
Proof.
  intros Htot Hguard. unfold maybe_compress, compress_history.
  rewrite (proj2 (Z.ltb_ge _ _) Htot).
  destruct Hguard as [-> | ->]; [reflexivity|].
  now rewrite andb_false_r.
Qed.

(** One message of 24000 characters and no digest. *)
Definition one_long_message : Session :=
  session_with [message_of_len USER 24000] None.

(** The compression claim fails on a short history: a session at the
    threshold with no digest and at most four messages is returned as it
    is. *)
Lemma maybe_compress_short_history_counterexample :
  truthy_opt (compressed_context one_long_message) = false /\
  COMPRESSION_THRESHOLD <= total_chars one_long_message /\
  ~ (exists s',
       maybe_compress one_long_message (summary_llm (Ok "digest")) 0 = Ok s' /\
       truthy_opt (compressed_context s') = true /\
       length (messages s') = 4%nat).
Proof.
  split; [reflexivity|]. split.
  - unfold one_long_message. rewrite total_chars_session_with.
    rewrite lens_cons_of_len by lia. vm_compute. discriminate.
  - intros (s' & Hrun & Hcc & _).
    rewrite maybe_compress_nothing_useful in Hrun.
    + injection Hrun as <-. discriminate Hcc.
    + unfold one_long_message, session_with, keep_recent. simpl. lia.
    + reflexivity.
Qed.

(** C5 (amended): a session with more than four messages, no digest and
    at least 24000 characters in its messages is compressed as soon as
    the summarisation call returns: [compressed_context] becomes the text
    returned (non-empty exactly when that text is), and [messages] keeps
    the four most recent messages, in order. *)
Theorem maybe_compress_fires s llm now t :
  truthy_opt (compressed_context s) = false ->
  COMPRESSION_THRESHOLD <= total_chars s ->
  (keep_recent < length (messages s))%nat ->
  summarize llm (take (length (messages s) - keep_recent) (messages s))
    (current_plan s) (user_preferences s) = Ok t ->
  exists s',
    maybe_compress s llm now = Ok s' /\
    compressed_context s' = Some t /\
    truthy_opt (compressed_context s') = truthy t /\
    messages s' = drop (length (messages s) - keep_recent) (messages s) /\
    length (messages s') = 4%nat.
Proof.
  intros Hcc Htot Hlen Hsum.
  destruct (long_history_split s Hlen) as (Hto & Hrec & Hnil).
  rewrite (maybe_compress_summarises s llm now Htot (or_introl Hnil)).
  rewrite (falsy_digest_prefix _ now Hcc), Hto. simpl app. rewrite Hsum. simpl.
  eexists. split; [reflexivity|]. simpl. rewrite Hrec.
  repeat split. rewrite length_drop. unfold keep_recent in *. lia.
Qed.

(** Five messages, 29994 characters in all; the last four have 23994. *)
Definition five_long_messages : Session :=
  session_with
    [ message_of_len USER 6000; message_of_len ASSISTANT 6000;
      message_of_len USER 6000; message_of_len ASSISTANT 6000;
      message_of_len USER 5994 ] None.

Lemma total_chars_five_long_messages : total_chars five_long_messages = 29994.
Proof.
  unfold five_long_messages. rewrite total_chars_session_with.
  rewrite !lens_cons_of_len by lia. reflexivity.
Qed.

Lemma maybe_compress_fires_witness :
  exists s',
    maybe_compress five_long_messages (summary_llm (Ok "digest")) 0 = Ok s' /\
    compressed_context s' = Some "digest" /\
    length (messages s') = 4%nat.
Proof.
  assert (Htot : COMPRESSION_THRESHOLD <= total_chars five_long_messages).
  { rewrite total_chars_five_long_messages. vm_compute. discriminate. }
  assert (Hlen : (keep_recent < length (messages five_long_messages))%nat).
  { unfold five_long_messages, session_with, keep_recent. simpl. lia. }
  destruct (maybe_compress_fires five_long_messages (summary_llm (Ok "digest"))
              0 "digest" eq_refl Htot Hlen eq_refl)
    as (s' & Hrun & Hcc & _ & _ & Hfour).
  exists s'. split; [exact Hrun|]. split; [exact Hcc | exact Hfour].
Defined.

(** *** Running the compressor twice *)

(** The session [five_long_messages] becomes once compressed to "digest":
    four messages of 23994 characters and a digest of 6, which is the
    threshold exactly. *)
Definition compressed_once : Session :=
  session_with
    [ message_of_len ASSISTANT 6000; message_of_len USER 6000;
      message_of_len ASSISTANT 6000; message_of_len USER 5994 ]
    (Some "digest").

Lemma total_chars_compressed_once :
  total_chars compressed_once = COMPRESSION_THRESHOLD.
Proof.
  unfold compressed_once. rewrite total_chars_session_with.
  rewrite !lens_cons_of_len by lia. reflexivity.
Qed.

(** Compressing a second time is not a no-op at the threshold: the first
    run fires and leaves exactly 24000 characters; the second run asks
    the model again and replaces the digest by the new answer. *)
Lemma maybe_compress_twice_counterexample :
  maybe_compress five_long_messages (summary_llm (Ok "digest")) 0
    = Ok compressed_once /\
  compressed_once <> five_long_messages /\
  total_chars compressed_once = COMPRESSION_THRESHOLD /\
  maybe_compress compressed_once (summary_llm (Ok "shorter digest")) 0
    <> Ok compressed_once.
Proof.
  split; [|split; [|split; [exact total_chars_compressed_once|]]].
  - rewrite maybe_compress_summarises.
    + reflexivity.
    + rewrite total_chars_five_long_messages. vm_compute. discriminate.
    + left. reflexivity.
  - intros H. apply (f_equal compressed_context) in H. discriminate H.
  - rewrite maybe_compress_summarises.
    + intros H.
      apply (f_equal (fun r => compressed_context (get_ok r compressed_once)))
        in H.
      discriminate H.
    + rewrite total_chars_compressed_once. lia.
    + right. reflexivity.
Qed.

(** C6 (amended): let [s1] be what [maybe_compress] returned.  If [s1]
    totals fewer than 24000 characters, or has no non-empty digest, a
    second run returns [s1] as it is without calling the summariser (it
    returns even when the summariser would raise).  If [s1] totals 24000
    characters or more, the exact threshold included, and has a
    non-empty digest, the second run summarises that digest again and
    replaces it, leaving the messages as they are. *)
Theorem maybe_compress_twice s llm1 now1 s1 :
  maybe_compress s llm1 now1 = Ok s1 ->
  (total_chars s1 < COMPRESSION_THRESHOLD
   \/ truthy_opt (compressed_context s1) = false ->
   forall llm2 now2, maybe_compress s1 llm2 now2 = Ok s1) /\
  (COMPRESSION_THRESHOLD <= total_chars s1 ->
   truthy_opt (compressed_context s1) = true ->
   forall llm2 now2,
     maybe_compress s1 llm2 now2 =
       (again <-
          summarize llm2
            [ {| role := SYSTEM;
                 content := "[Prior compressed context]: "
                            +:+ default "" (compressed_context s1);
                 timestamp := now2; is_blocked := false |} ]
            (current_plan s1) (user_preferences s1) ;;
        Ok (set_compressed_context (Some again) s1))).
Proof.
  intros Hrun.
  assert (Hshort : (total_chars s1 < COMPRESSION_THRESHOLD \/
                    truthy_opt (compressed_context s1) = false) \/
                   (length (messages s1) <= keep_recent)%nat).
  { destruct (maybe_compress_cases _ _ _ _ Hrun)
      as [[-> [Hlt|[Hnil Hcc]]]|(c & _ & ->)].
    - left. now left.
    - left. now right.
    - right. apply recent_messages_length. }
  split.
  - intros Hquiet llm2 now2.
    destruct Hquiet as [Hlt|Hcc]; [now apply maybe_compress_below|].
    destruct Hshort as [[Hlt|_]|Hlen].
    + now apply maybe_compress_below.
    + destruct (maybe_compress_cases _ _ _ _ Hrun)
        as [[-> [Hlt|[Hnil _]]]|(c & _ & ->)].
      * now apply maybe_compress_below.
      * unfold maybe_compress. rewrite Hnil, Hcc. simpl.
        now destruct (_ <? _).
      * apply maybe_compress_nothing_useful; [|exact Hcc].
        apply recent_messages_length.
    + now apply maybe_compress_nothing_useful.
  - intros Htot Hcc llm2 now2.
    destruct Hshort as [[Hlt|Hfalsy]|Hlen]; [lia | congruence |].
    destruct (short_history_nothing_older s1 Hlen) as [Hto Hrec].
    rewrite (maybe_compress_summarises s1 llm2 now2 Htot (or_intror Hcc)).
    rewrite Hto, Hrec, app_nil_r.
    destruct (compressed_context s1) as [c|] eqn:Hc; [|discriminate].
    simpl in Hcc. rewrite Hcc. simpl.
    destruct (summarize llm2 _ _ _) as [again|e]; simpl; [|reflexivity].
    reflexivity.
Qed.

(** Five messages of 5000 characters, and what is left of them after
    compression: 20006 characters. *)
Definition five_medium_messages : Session :=
  session_with
    [ message_of_len USER 5000; message_of_len ASSISTANT 5000;
      message_of_len USER 5000; message_of_len ASSISTANT 5000;
      message_of_len USER 5000 ] None.

Definition compressed_medium : Session :=
  session_with
    [ message_of_len ASSISTANT 5000; message_of_len USER 5000;
      message_of_len ASSISTANT 5000; message_of_len USER 5000 ]
    (Some "digest").

Lemma maybe_compress_twice_witness :
  (forall llm2 now2,
     maybe_compress compressed_medium llm2 now2 = Ok compressed_medium) /\
  maybe_compress compressed_once
    (summary_llm (Raise (Exception "must not be called"))) 0
  = Raise (Exception "must not be called").
Proof.
  assert (Hmedium :
    maybe_compress five_medium_messages (summary_llm (Ok "digest")) 0
    = Ok compressed_medium).
  { rewrite maybe_compress_summarises.
    - reflexivity.
    - unfold five_medium_messages. rewrite total_chars_session_with.
      rewrite !lens_cons_of_len by lia. vm_compute. discriminate.
    - left. reflexivity. }
  assert (Hlong :
    maybe_compress five_long_messages (summary_llm (Ok "digest")) 0
    = Ok compressed_once).
  { rewrite maybe_compress_summarises.
    - reflexivity.
    - rewrite total_chars_five_long_messages. vm_compute. discriminate.
    - left. reflexivity. }
  split.
  - destruct (maybe_compress_twice _ _ _ _ Hmedium) as [Hquiet _].
    apply Hquiet. left.
    unfold compressed_medium. rewrite total_chars_session_with.
    rewrite !lens_cons_of_len by lia. vm_compute. reflexivity.
  - destruct (maybe_compress_twice _ _ _ _ Hlong) as [_ Hagain].
    rewrite Hagain; [reflexivity | | reflexivity].
    rewrite total_chars_compressed_once. lia.
Defined.

(** ** Context assembly *)

Definition context_entry (msg : Message) : ContextEntry :=
  {| ce_role := role_value (role msg); ce_content := content msg |}.

Definition history_entry (m : Message) : HistoryEntry :=
  {| h_role := role_value (role m); h_content := content m;
     h_timestamp := timestamp m |}.

Lemma context_loop msgs : forall parts,
  fold_left
    (fun parts msg =>
       if is_blocked msg then parts
       else parts ++ [ {| ce_role := role_value (role msg);
                          ce_content := content msg |} ])
    msgs parts
  = parts ++ map context_entry
               (List.filter (fun msg => negb (is_blocked msg)) msgs).
Proof.
  induction msgs as [|m msgs IH]; intros parts; simpl.
  - now rewrite app_nil_r.
  - rewrite IH. destruct (is_blocked m); simpl; [reflexivity|].
    now rewrite <- app_assoc.
Qed.

(** The same message, blocked. *)
Definition block (m : Message) : Message :=
  {| role := role m; content := content m; timestamp := timestamp m;
     is_blocked := true |}.

Lemma lens_cons_block r n msgs :
  0 <= n -> lens (block (message_of_len r n) :: msgs) = n :: lens msgs.
Proof.
  intros Hn. unfold lens. cbn [map]. f_equal.
  change (content (block (message_of_len r n)))
    with (content (message_of_len r n)).
  now apply len_message_of_len.
Qed.

(** What [five_long_messages] becomes when the summariser answers with
    the empty text. *)
Definition empty_digest_session : Session :=
  session_with
    [ message_of_len ASSISTANT 6000; message_of_len USER 6000;
      message_of_len ASSISTANT 6000; message_of_len USER 5994 ]
    (Some "").

(** Five messages the oldest of which is blocked, and what is left of
    them after compression. *)
Definition blocked_then_long : Session :=
  session_with
    [ block (message_of_len USER 6001); message_of_len ASSISTANT 6000;
      message_of_len USER 6000; message_of_len ASSISTANT 6000;
      message_of_len USER 5994 ] None.

Definition blocked_compressed : Session :=
  session_with
    [ message_of_len ASSISTANT 6000; message_of_len USER 6000;
      message_of_len ASSISTANT 6000; message_of_len USER 5994 ]
    (Some "saw a blocked message").

(** A summariser that tells whether it was handed a blocked message. *)
Definition telltale_llm : LLM :=
  {| summarize := fun msgs _ _ =>
       Ok (if existsb is_blocked msgs then "saw a blocked message"
           else "saw no blocked message");
     ainvoke_structured := fun _ => Ok None |}.

Lemma context_of_unblocked (msgs : list Message) (cc : option string) :
  forallb (fun m => negb (is_blocked m)) msgs = true ->
  truthy_opt cc = false ->
  build_context_messages (session_with msgs cc) = map context_entry msgs.
Proof.
  intros Hall Hcc. unfold build_context_messages. rewrite context_loop.
  simpl messages. simpl compressed_context.
  replace (match cc with
           | Some c =>
               if truthy c
               then [ {| ce_role := "system";
                         ce_content := "[Compressed prior context]" +:+ nl
                                       +:+ c |} ]
               else []
           | None => []
           end) with (@nil ContextEntry)
    by (destruct cc as [c|]; [simpl in Hcc; now rewrite Hcc | reflexivity]).
  simpl app. f_equal.
  induction msgs as [|m msgs IH]; [reflexivity|].
  simpl in Hall. apply andb_true_iff in Hall as [Hm Hall].
  simpl. rewrite Hm. f_equal. now apply IH.
Qed.

(** The claim fails in two places.  A digest that is set but empty, as
    compression leaves it when the summariser returns the empty text,
    gets no entry in the assembled context.  And a blocked message older
    than the retention window does not remain in the log: compression
    removes it, hands it to the summariser, and the history no longer
    returns it. *)
Lemma blocked_messages_counterexample :
  (maybe_compress five_long_messages (summary_llm (Ok "")) 0
     = Ok empty_digest_session /\
   compressed_context empty_digest_session = Some "" /\
   build_context_messages empty_digest_session
     = map context_entry (messages empty_digest_session) /\
   length (build_context_messages empty_digest_session) = 4%nat) /\
  (block (message_of_len USER 6001) ∈ messages blocked_then_long /\
   maybe_compress blocked_then_long telltale_llm 0 = Ok blocked_compressed /\
   (block (message_of_len USER 6001) ∉ messages blocked_compressed) /\
   get_history (save blocked_compressed ∅) "s1" demo_user
     = Ok (map history_entry (messages blocked_compressed)) /\
   (history_entry (block (message_of_len USER 6001))
      ∉ map history_entry (messages blocked_compressed))).
Proof.
  split.
  - split; [|split; [reflexivity|]].
    + rewrite maybe_compress_summarises.
      * reflexivity.
      * rewrite total_chars_five_long_messages. vm_compute. discriminate.
      * left. reflexivity.
    + assert (Hctx : build_context_messages empty_digest_session
                     = map context_entry (messages empty_digest_session)).
      { unfold empty_digest_session. rewrite context_of_unblocked.
        - reflexivity.
        - cbn [forallb]. now rewrite !is_blocked_message_of_len.
        - reflexivity. }
      split; [exact Hctx|]. now rewrite Hctx.
  - split; [apply list_elem_of_here|]. split; [|split; [|split]].
    + rewrite maybe_compress_summarises.
      * reflexivity.
      * unfold blocked_then_long. rewrite total_chars_session_with.
        rewrite lens_cons_block, !lens_cons_of_len by lia.
        vm_compute. discriminate.
      * left. reflexivity.
    + intros Hin. unfold blocked_compressed, session_with in Hin.
      simpl messages in Hin.
      repeat (apply elem_of_cons in Hin as [Heq|Hin];
              [apply (f_equal is_blocked) in Heq;
               rewrite is_blocked_message_of_len in Heq; discriminate Heq|]).
      now apply elem_of_nil in Hin.
    + unfold get_history.
      assert (Hget : save blocked_compressed ∅ !! "s1" = Some blocked_compressed)
        by apply lookup_insert_eq.
      rewrite Hget. reflexivity.
    + intros Hin. unfold blocked_compressed, session_with in Hin.
      simpl messages in Hin. cbn [map] in Hin.
      repeat (apply elem_of_cons in Hin as [Heq|Hin];
              [apply (f_equal (fun e => len (h_content e))) in Heq;
               cbn [h_content history_entry] in Heq;
               change (content (block (message_of_len USER 6001)))
                 with (content (message_of_len USER 6001)) in Heq;
               rewrite !len_message_of_len in Heq by lia; discriminate Heq|]).
      now apply elem_of_nil in Hin.
Qed.

(** C7 (amended): the assembled context is the digest entry, when
    [compressed_context] is set and not empty, followed by the entries
    of the messages that are not blocked, in their original order.  The
    history endpoint lists every message of the stored log, so a blocked
    message that is in the log is returned there.  Compression keeps a
    blocked message like any other: the log it returns is the whole log
    or, when that had more than four messages, its last four, and the
    messages before those, blocked ones included, are handed to the
    summariser whose answer becomes the digest. *)
Theorem blocked_messages_in_context_and_log s :
  build_context_messages s =
    (if truthy_opt (compressed_context s)
     then [ {| ce_role := "system";
               ce_content := "[Compressed prior context]" +:+ nl
                             +:+ default "" (compressed_context s) |} ]
     else [])
    ++ map context_entry
         (List.filter (fun msg => negb (is_blocked msg)) (messages s)) /\
  (forall store sid user,
     store !! sid = Some s ->
     user_id s = Some (u_user_id user) ->
     get_history store sid user = Ok (map history_entry (messages s)) /\
     forall m, m ∈ messages s -> is_blocked m = true ->
       exists entries,
         get_history store sid user = Ok entries /\
         history_entry m ∈ entries) /\
  (forall llm now s',
     maybe_compress s llm now = Ok s' ->
     messages s' = messages s \/
     ((4 < length (messages s))%nat /\
      messages s' = drop (length (messages s) - 4) (messages s) /\
      exists digest,
        summarize llm
          ((match compressed_context s with
            | Some cc =>
                if truthy cc
                then [ {| role := SYSTEM;
                          content := "[Prior compressed context]: " +:+ cc;
                          timestamp := now; is_blocked := false |} ]
                else []
            | None => []
            end) ++ take (length (messages s) - 4) (messages s))
          (current_plan s) (user_preferences s) = Ok digest /\
        compressed_context s' = Some digest)).
Proof.
  split; [|split].
  - unfold build_context_messages. rewrite context_loop. f_equal.
    destruct (compressed_context s) as [cc|]; simpl; [|reflexivity].
    now destruct (truthy cc).
  - intros store sid user Hget Huser.
    assert (Hh : get_history store sid user
                 = Ok (map history_entry (messages s))).
    { unfold get_history. rewrite Hget.
      now rewrite bool_decide_eq_true_2 by exact Huser. }
    split; [exact Hh|]. intros m Hm _.
    exists (map history_entry (messages s)). split; [exact Hh|].
    now apply list_elem_of_fmap_2.
  - intros llm now s' Hrun.
    destruct (maybe_compress_cases _ _ _ _ Hrun)
      as [[-> _]|(digest & Hsum & ->)]; [now left|].
    simpl messages. simpl compressed_context.
    destruct (Nat.lt_ge_cases keep_recent (length (messages s))) as [Hlong|Hshort].
    + destruct (long_history_split s Hlong) as (Hto & Hrec & _).
      right. unfold keep_recent in *. split; [exact Hlong|].
      split; [exact Hrec|]. exists digest. rewrite Hto in Hsum.
      split; [exact Hsum | reflexivity].
    + destruct (short_history_nothing_older s Hshort) as [_ Hrec]. now left.
Qed.

Definition blocked_message : Message :=
  {| role := USER; content := "my card number is 1234"; timestamp := 5;
     is_blocked := true |}.

Definition plain_message : Message :=
  {| role := ASSISTANT; content := "noted"; timestamp := 6;
     is_blocked := false |}.

Definition redacted_session : Session :=
  session_with [blocked_message; plain_message] (Some "earlier talk").

Lemma blocked_messages_in_context_and_log_witness :
  build_context_messages redacted_session =
    [ {| ce_role := "system";
         ce_content := "[Compressed prior context]" +:+ nl +:+ "earlier talk" |};
      {| ce_role := "assistant"; ce_content := "noted" |} ] /\
  get_history (save redacted_session ∅) "s1" demo_user =
    Ok [ history_entry blocked_message; history_entry plain_message ] /\
  (messages blocked_compressed = messages blocked_then_long \/
   messages blocked_compressed
   = drop (length (messages blocked_then_long) - 4)
          (messages blocked_then_long)).
Proof.
  destruct (blocked_messages_in_context_and_log redacted_session)
    as (Hctx & Hhist & _).
  split; [rewrite Hctx; reflexivity|]. split.
  - assert (Hget : save redacted_session ∅ !! "s1" = Some redacted_session)
      by (vm_compute; reflexivity).
    destruct (Hhist (save redacted_session ∅) "s1" demo_user Hget eq_refl)
      as [Hall _].
    exact Hall.
  - assert (Hrun : maybe_compress blocked_then_long telltale_llm 0
                   = Ok blocked_compressed).
    { rewrite maybe_compress_summarises.
      - reflexivity.
      - unfold blocked_then_long. rewrite total_chars_session_with.
        rewrite lens_cons_block, !lens_cons_of_len by lia.
        vm_compute. discriminate.
      - left. reflexivity. }
    destruct (blocked_messages_in_context_and_log blocked_then_long)
      as (_ & _ & Hcompress).
    destruct (Hcompress telltale_llm 0 blocked_compressed Hrun)
      as [Hsame|(_ & Hcut & _)]; [now left | now right].
Defined.

(** ** Preference extraction *)

Section Scan.
Variable lowered : string.

Definition matching (keywords : list (string * string))
    : list (string * string) :=
  List.filter (fun wv => str_in wv.1 lowered) keywords.

Lemma scan_keywords_last k keywords : forall m : gmap string string,
  scan_keywords lowered k keywords m =
    match last (matching keywords) with
    | Some wv => <[k := wv.2]> m
    | None => m
    end.
Proof.
  unfold scan_keywords, matching.
  induction keywords as [|x kws IH]; intros m; simpl; [reflexivity|].
  rewrite IH. destruct (str_in x.1 lowered); [|reflexivity].
  destruct (List.filter _ kws) as [|y l]; [reflexivity|].
  rewrite last_cons_cons.
  destruct (last (y :: l)) as [wv|] eqn:Hlast.
  - apply insert_insert_eq.
  - now apply last_None in Hlast.
Qed.

Lemma scan_keywords_lookup k keywords (m : gmap string string) k' :
  scan_keywords lowered k keywords m !! k' =
    if decide (k = k')
    then match last (matching keywords) with
         | Some wv => Some wv.2
         | None => m !! k'
         end
    else m !! k'.
Proof.
  rewrite scan_keywords_last.
  destruct (last (matching keywords)) as [wv|]; case_decide; subst;
    try reflexivity.
  - apply lookup_insert_eq.
  - now apply lookup_insert_ne.
Qed.

Lemma matching_nil keywords :
  (forall wv, wv ∈ keywords -> str_in wv.1 lowered = false) ->
  matching keywords = [].
Proof.
  unfold matching. induction keywords as [|x kws IH]; intros H; simpl;
    [reflexivity|].
  rewrite (H x) by apply list_elem_of_here.
  apply IH. intros wv Hwv. apply H. now apply list_elem_of_further.
Qed.

(** The loop on a dict object writes to that object only. *)
Lemma obj_scan_keywords k keywords (a : nat) :
  forall (d : gmap string string) (h : gmap nat (gmap string string)),
  Obj.scan_keywords lowered k keywords a (<[a := d]> h) =
  <[a := scan_keywords lowered k keywords d]> h.
Proof.
  unfold Obj.scan_keywords, scan_keywords.
  induction keywords as [|x kws IH]; intros d h; simpl; [reflexivity|].
  destruct (str_in x.1 lowered); [|apply IH].
  unfold Obj.dict_setitem. rewrite alter_insert_eq. apply IH.
Qed.
End Scan.

Lemma extract_preferences_unfold text existing :
  extract_preferences text existing =
  scan_keywords (lower text) "tone"
    [ ("formal", "formal"); ("casual", "casual");
      ("professional", "formal"); ("friendly", "casual") ]
    (scan_keywords (lower text) "detail_level"
       [ ("detailed", "detailed"); ("brief", "brief"); ("concise", "brief");
         ("verbose", "detailed"); ("short", "brief") ]
       existing).
Proof. reflexivity. Qed.

Lemma obj_extract_preferences text a (h : gmap nat (gmap string string)) :
  Obj.extract_preferences text a h =
  (<[fresh (dom h) := extract_preferences text (default ∅ (h !! a))]> h,
   fresh (dom h)).
Proof.
  transitivity
    (Obj.scan_keywords (lower text) "tone"
       [ ("formal", "formal"); ("casual", "casual");
         ("professional", "formal"); ("friendly", "casual") ]
       (fresh (dom h))
       (Obj.scan_keywords (lower text) "detail_level"
          [ ("detailed", "detailed"); ("brief", "brief");
            ("concise", "brief"); ("verbose", "detailed");
            ("short", "brief") ]
          (fresh (dom h))
          (<[fresh (dom h) := default ∅ (h !! a)]> h)),
     fresh (dom h)); [reflexivity|].
  now rewrite !obj_scan_keywords.
Qed.

(** C8: [extract_preferences] decides every category of the catalog by
    the last keyword of that category, in catalog order, that occurs in
    the lowered text, and keeps the prior value of a category none of
    whose keywords occurs; keys outside the catalog keep their value;
    with no keyword occurring at all the result equals [existing].  On
    dict objects the result is a newly allocated mapping and the object
    passed as [existing], like every other object, is left as it was. *)
Theorem extract_preferences_last_match_wins text existing :
  (forall pref_key keywords,
     (pref_key, keywords) ∈ _PREFERENCE_KEYWORDS ->
     extract_preferences text existing !! pref_key =
       match last (matching (lower text) keywords) with
       | Some wv => Some wv.2
       | None => existing !! pref_key
       end) /\
  (forall k,
     (forall keywords, (k, keywords) ∉ _PREFERENCE_KEYWORDS) ->
     extract_preferences text existing !! k = existing !! k) /\
  ((forall pref_key keywords wv,
      (pref_key, keywords) ∈ _PREFERENCE_KEYWORDS ->
      wv ∈ keywords -> str_in wv.1 (lower text) = false) ->
   extract_preferences text existing = existing) /\
  (forall (h : gmap nat (gmap string string)) (a : nat),
     h !! a = Some existing ->
     let r := Obj.extract_preferences text a h in
     r.2 <> a /\ h !! r.2 = None /\
     r.1 !! r.2 = Some (extract_preferences text existing) /\
     r.1 !! a = Some existing /\
     (forall b, b <> r.2 -> r.1 !! b = h !! b)).
Proof.
  split; [|split; [|split]].
  - intros pref_key keywords Hin. rewrite extract_preferences_unfold.
    rewrite !scan_keywords_lookup.
    unfold _PREFERENCE_KEYWORDS in Hin.
    apply elem_of_cons in Hin as [[= -> ->]|Hin];
      [|apply elem_of_cons in Hin as [[= -> ->]|Hin];
        [|now apply elem_of_nil in Hin]].
    + rewrite decide_False by discriminate. now rewrite decide_True.
    + now rewrite decide_True.
  - intros k Hout. rewrite extract_preferences_unfold.
    rewrite !scan_keywords_lookup.
    rewrite !decide_False; [reflexivity| |]; intros <-;
      eapply Hout; unfold _PREFERENCE_KEYWORDS.
    + apply list_elem_of_here.
    + apply list_elem_of_further, list_elem_of_here.
  - intros Hnone. rewrite extract_preferences_unfold.
    rewrite !scan_keywords_last.
    rewrite (matching_nil (lower text)
               [ ("formal", "formal"); ("casual", "casual");
                 ("professional", "formal"); ("friendly", "casual") ]).
    2:{ intros wv. apply (Hnone "tone").
        apply list_elem_of_further, list_elem_of_here. }
    rewrite matching_nil; [reflexivity|].
    intros wv. apply (Hnone "detail_level"). apply list_elem_of_here.
  - intros h a Ha r. subst r. rewrite obj_extract_preferences. simpl.
    assert (Hfresh : h !! fresh (dom h) = None).
    { apply not_elem_of_dom. apply is_fresh. }
    assert (Hne : fresh (dom h) <> a).
    { intros Heq. rewrite Heq in Hfresh. congruence. }
    split; [exact Hne|]. split; [exact Hfresh|]. rewrite Ha. simpl.
    split; [apply lookup_insert_eq|].
    split; [now rewrite lookup_insert_ne|].
    intros b Hb. now rewrite lookup_insert_ne.
Qed.

Lemma extract_preferences_last_match_wins_witness :
  extract_preferences "Keep it BRIEF but detailed, and Formal please."
    {[ "detail_level" := "detailed"; "language" := "pt" ]} !! "detail_level"
  = Some "brief".
Proof.
  destruct (extract_preferences_last_match_wins
              "Keep it BRIEF but detailed, and Formal please."
              {[ "detail_level" := "detailed"; "language" := "pt" ]})
    as (Hlast & _).
  assert (Hin : ("detail_level",
                 [ ("detailed", "detailed"); ("brief", "brief");
                   ("concise", "brief"); ("verbose", "detailed");
                   ("short", "brief") ]) ∈ _PREFERENCE_KEYWORDS)
    by apply list_elem_of_here.
  exact (Hlast _ _ Hin).
Defined.

(** ** The chat response *)

Definition chitchat_env : TurnEnv :=
  scripted_env (Ok (Some (demo_response NONE None))).

Definition hello : ChatRequest :=
  {| req_session_id := "s1"; message := "hello" |}.

(** On a session without versions [plan_version] is absent, not 0: a
    first, successful, small-talk turn on a new session. *)
Lemma chat_plan_version_counterexample :
  match chat chitchat_env demo_store hello demo_user with
  | Ok (store', resp) =>
      match store' !! "s1" with
      | Some s' =>
          plan_versions s' = [] /\
          plan_version resp <> Some (Z.of_nat (length (plan_versions s')))
      | None => False
      end
  | Raise _ => False
  end.
Proof. vm_compute. split; [reflexivity | discriminate]. Qed.

(** The degraded response is built without [awaiting_confirmation]: it
    reports [false] also while a proposed plan is pending. *)
Definition pending_session : Session :=
  set_pending_plan (Some demo_plan) (new_session "s1" "u1").

Lemma degraded_turn_hides_pending_plan :
  match chat failing_env (save pending_session ∅) hello demo_user with
  | Ok (store', resp) =>
      match store' !! "s1" with
      | Some s' =>
          pending_plan s' = Some demo_plan /\
          awaiting_confirmation resp = false
      | None => False
      end
  | Raise _ => False
  end.
Proof. vm_compute. split; reflexivity. Qed.

(** C9 (amended): a chat turn that [run_agent] completes answers with a
    response built from the session [s'] it saves.  [plan] echoes the
    [current_plan] of [s'] when the reported action is NONE, which
    includes every degraded turn, and is the decision's plan otherwise;
    [plan_version] is the number of plan versions of [s'] when there is
    at least one and is absent when there is none; on a turn with a
    usable decision [awaiting_confirmation] is true exactly when
    [pending_plan] of [s'] is set. *)
Theorem chat_response_fields env store req user s s' agent_resp err :
  store !! req_session_id req = Some s ->
  user_id s = Some (u_user_id user) ->
  run_agent env s (message req) = Ok (s', agent_resp, err) ->
  exists resp,
    chat env store req user = Ok (save s' store, resp) /\
    cr_turn_count resp = turn_count s' /\
    (plan_versions s' = [] -> plan_version resp = None) /\
    (plan_versions s' <> [] ->
     plan_version resp = Some (Z.of_nat (length (plan_versions s')))) /\
    match usable_response err agent_resp with
    | None =>
        cr_action resp = NONE /\ cr_plan resp = current_plan s'
    | Some r =>
        cr_action resp = action r /\
        (action r = NONE -> cr_plan resp = current_plan s') /\
        (action r <> NONE -> cr_plan resp = plan r) /\
        (awaiting_confirmation resp = true <-> is_Some (pending_plan s'))
    end.
Proof.
  intros Hget Huser Hrun. unfold chat.
  rewrite Hget, bool_decide_eq_true_2 by exact Huser.
  rewrite Hrun. simpl.
  assert (Hv0 : plan_versions s' = [] -> versions_count s' = None).
  { unfold versions_count. now intros ->. }
  assert (Hv1 : plan_versions s' <> [] ->
                versions_count s' = Some (Z.of_nat (length (plan_versions s')))).
  { unfold versions_count. now destruct (plan_versions s'). }
  destruct (usable_response err agent_resp) as [r|];
    (eexists; split; [reflexivity|]); simpl;
    (split; [reflexivity|]); (split; [exact Hv0|]); (split; [exact Hv1|]).
  - split; [reflexivity|]. split; [|split].
    + now intros ->.
    + now destruct (action r).
    + destruct (pending_plan s') as [p|]; simpl; split;
        try discriminate; try reflexivity; eauto.
      intros [x Hx]. discriminate.
  - split; reflexivity.
Qed.

Definition proposing_env : TurnEnv :=
  scripted_env (Ok (Some (demo_response PROPOSE (Some demo_plan)))).

Definition proposed_turn : Session * option AgentResponse * option string :=
  get_ok (run_agent proposing_env (new_session "s1" "u1") "hello")
         (new_session "s1" "u1", None, None).

Lemma chat_response_fields_witness :
  exists resp,
    chat proposing_env demo_store hello demo_user
      = Ok (save proposed_turn.1.1 demo_store, resp) /\
    cr_plan resp = Some demo_plan /\
    plan_version resp = None /\
    awaiting_confirmation resp = true.
Proof.
  assert (Hget : demo_store !! req_session_id hello
                 = Some (new_session "s1" "u1")) by (vm_compute; reflexivity).
  assert (Hrun : run_agent proposing_env (new_session "s1" "u1") (message hello)
                 = Ok (proposed_turn.1.1, proposed_turn.1.2, proposed_turn.2))
    by (vm_compute; reflexivity).
  destruct (chat_response_fields proposing_env demo_store hello demo_user
              _ _ _ _ Hget eq_refl Hrun)
    as (resp & Hchat & _ & Hnone & _ & Hfields).
  exists resp. split; [exact Hchat|].
  change (usable_response proposed_turn.2 proposed_turn.1.2)
    with (Some (demo_response PROPOSE (Some demo_plan))) in Hfields.
  destruct Hfields as (_ & _ & Hplan & Hawait).
  split; [apply Hplan; discriminate|].
  split; [apply Hnone; reflexivity|].
  apply Hawait. eexists. reflexivity.
Defined.

(** * Further properties of the backend *)

(** ** backend/session_store.py: [InMemorySessionStore]

    The store is a Python dict from session ids to sessions.  Here it is
    the list of its items in insertion order, which [list_by_user]
    iterates; the keys of a dict are pairwise distinct ([dict_ok]).
    Assigning to a key that is present replaces the value where it
    stands, assigning to a new key appends. *)

Module InMemorySessionStore.

Fixpoint dict_get {V} (k : string) (d : list (string * V)) : option V :=
  match d with
  | [] => None
  | (k', v) :: d' => if bool_decide (k = k') then Some v else dict_get k d'
  end.

Fixpoint dict_set {V} (k : string) (v : V) (d : list (string * V))
    : list (string * V) :=
  match d with
  | [] => [(k, v)]
  | (k', v') :: d' =>
      if bool_decide (k = k') then (k, v) :: d' else (k', v') :: dict_set k v d'
  end.

(** [d.pop(k, None)], for its effect on the dict. *)
Definition dict_pop {V} (k : string) (d : list (string * V))
    : list (string * V) :=
  List.filter (fun kv => negb (bool_decide (k = kv.1))) d.

Definition dict_ok {V} (d : list (string * V)) : Prop := NoDup (map fst d).

Definition get (session_id : string) (_store : list (string * Session))
    : option Session :=
  dict_get session_id _store.

Definition save (s : Session) (_store : list (string * Session))
    : list (string * Session) :=
  dict_set (session_id s) s _store.

Definition delete (session_id : string) (_store : list (string * Session))
    : list (string * Session) :=
  dict_pop session_id _store.

Definition exists_ (session_id : string) (_store : list (string * Session))
    : bool :=
  existsb (fun kv => bool_decide (session_id = kv.1)) _store.

Record SessionSummary := {
  ss_session_id : string;
  ss_plan_name : option string;
  ss_turn_count : Z;
  ss_has_plan : bool
}.

(** [s.plan_name or (s.current_plan.title if s.current_plan else None)] *)
Definition shown_plan_name (s : Session) : option string :=
  if truthy_opt (plan_name s) then plan_name s
  else title <$> current_plan s.

Definition summary_of (s : Session) : SessionSummary :=
  {| ss_session_id := session_id s;
     ss_plan_name := shown_plan_name s;
     ss_turn_count := turn_count s;
     ss_has_plan := is_Some_b (current_plan s) |}.

Definition list_by_user (uid : string) (_store : list (string * Session))
    : list SessionSummary :=
  fold_left
    (fun results s =>
       if bool_decide (user_id s = Some uid)
       then results ++ [summary_of s] else results)
    (map snd _store) [].

(** The store as the finite map the endpoints are stated on. *)
Definition to_map (_store : list (string * Session)) : gmap string Session :=
  list_to_map _store.

(** Every item is filed under the id of its session, as [save] does. *)
Definition keyed (_store : list (string * Session)) : Prop :=
  Forall (fun kv => session_id kv.2 = kv.1) _store.

End InMemorySessionStore.

Section DictFacts.
Context {V : Type}.
Implicit Types (d : list (string * V)) (k : string) (v : V).

Import InMemorySessionStore.

Lemma dict_get_set d k v k' :
  dict_get k' (dict_set k v d) = if bool_decide (k' = k) then Some v else dict_get k' d.
Proof.
  induction d as [|[k0 v0] d IH]; simpl.
  - reflexivity.
  - destruct (bool_decide_reflect (k = k0)) as [->|Hne]; simpl.
    + now destruct (bool_decide (k' = k0)).
    + rewrite IH.
      destruct (bool_decide_reflect (k' = k0)) as [->|Hne'];
        [|reflexivity].
      now rewrite bool_decide_eq_false_2 by congruence.
Qed.

Lemma dict_get_pop d k k' :
  dict_get k' (dict_pop k d) = if bool_decide (k' = k) then None else dict_get k' d.
Proof.
  unfold dict_pop. induction d as [|[k0 v0] d IH]; simpl.
  - now destruct (bool_decide _).
  - destruct (bool_decide_reflect (k = k0)) as [->|Hne]; simpl.
    + rewrite IH. destruct (bool_decide_reflect (k' = k0)); reflexivity.
    + rewrite IH.
      destruct (bool_decide_reflect (k' = k0)) as [->|Hne'];
        [|reflexivity].
      now rewrite bool_decide_eq_false_2 by congruence.
Qed.

Lemma dict_pop_absent d k : dict_get k d = None -> dict_pop k d = d.
Proof.
  unfold dict_pop. induction d as [|[k0 v0] d IH]; simpl; [reflexivity|].
  destruct (bool_decide_reflect (k = k0)) as [->|Hne]; simpl; [discriminate|].
  intros H. now rewrite IH.
Qed.

Lemma dict_set_keys d k v :
  map fst (dict_set k v d) =
  if is_Some_b (dict_get k d) then map fst d else map fst d ++ [k].
Proof.
  induction d as [|[k0 v0] d IH]; simpl; [reflexivity|].
  destruct (bool_decide_reflect (k = k0)) as [->|Hne]; simpl; [reflexivity|].
  rewrite IH. now destruct (is_Some_b (dict_get k d)).
Qed.

Lemma dict_get_None_keys d k : dict_get k d = None <-> k ∉ map fst d.
Proof.
  induction d as [|[k0 v0] d IH]; simpl.
  - split; [intros _; apply not_elem_of_nil | reflexivity].
  - rewrite not_elem_of_cons.
    destruct (bool_decide_reflect (k = k0)) as [->|Hne].
    + split; [discriminate | intros [H _]; now destruct H].
    + rewrite IH. tauto.
Qed.

Lemma dict_set_ok d k v : dict_ok d -> dict_ok (dict_set k v d).
Proof.
  unfold dict_ok. intros Hd. rewrite dict_set_keys.
  destruct (dict_get k d) eqn:Hk; simpl; [exact Hd|].
  apply NoDup_app. split; [exact Hd|]. split; [|apply NoDup_singleton].
  intros x Hx Hx'. apply list_elem_of_singleton in Hx' as ->.
  now apply dict_get_None_keys in Hk.
Qed.

Lemma dict_pop_ok d k : dict_ok d -> dict_ok (dict_pop k d).
Proof.
  unfold dict_ok, dict_pop. induction d as [|[k0 v0] d IH]; simpl;
    [intros _; apply NoDup_nil_2|].
  intros Hd. apply NoDup_cons in Hd as [Hk0 Hd].
  destruct (bool_decide (k = k0)); simpl; [now apply IH|].
  apply NoDup_cons. split; [|now apply IH].
  intros Hin. apply Hk0.
  apply list_elem_of_fmap in Hin as ([k1 v1] & -> & Hin).
  apply list_elem_of_In, filter_In in Hin as [Hin _].
  apply list_elem_of_fmap. exists (k1, v1).
  split; [reflexivity | now apply list_elem_of_In].
Qed.

End DictFacts.

(** The map-level [save] of the endpoints, under a name that stays
    visible beside the store's own [save]. *)
Definition map_save := save.

Lemma lookup_map_save s (store : gmap string Session) k :
  map_save s store !! k =
  if bool_decide (k = session_id s) then Some s else store !! k.
Proof.
  unfold map_save, save. rewrite lookup_insert.
  destruct (bool_decide_reflect (k = session_id s)) as [->|Hne].
  - now rewrite decide_True.
  - now rewrite decide_False by congruence.
Qed.

Section StoreFacts.
Import InMemorySessionStore.
Implicit Types (st : list (string * Session)) (s : Session) (k uid : string).

Lemma exists_get k st : exists_ k st = is_Some_b (get k st).
Proof.
  unfold exists_, get. induction st as [|[k0 v0] st IH]; simpl; [reflexivity|].
  rewrite IH. now destruct (bool_decide (k = k0)).
Qed.

Lemma get_to_map k st : get k st = to_map st !! k.
Proof.
  unfold get, to_map. induction st as [|[k0 v0] st IH]; simpl.
  - now rewrite lookup_empty.
  - rewrite lookup_insert.
    destruct (bool_decide_reflect (k = k0)) as [->|Hne].
    + now rewrite decide_True.
    + now rewrite decide_False by congruence.
Qed.

Lemma list_by_user_loop uid (l : list Session) : forall results,
  fold_left
    (fun results s =>
       if bool_decide (user_id s = Some uid)
       then results ++ [summary_of s] else results)
    l results
  = results ++ map summary_of
                 (List.filter (fun s => bool_decide (user_id s = Some uid)) l).
Proof.
  induction l as [|s l IH]; intros results; simpl.
  - now rewrite app_nil_r.
  - rewrite IH. destruct (bool_decide _); simpl; [|reflexivity].
    now rewrite <- app_assoc.
Qed.

Lemma list_by_user_filter uid st :
  list_by_user uid st =
  map summary_of
    (List.filter (fun s => bool_decide (user_id s = Some uid)) (map snd st)).
Proof. unfold list_by_user. now rewrite list_by_user_loop. Qed.

Lemma save_keyed s st : keyed st -> keyed (save s st).
Proof.
  unfold keyed, save. induction st as [|[k0 v0] st IH]; simpl; intros H.
  - now repeat constructor.
  - apply Forall_cons in H as [H0 H].
    destruct (bool_decide (session_id s = k0)); constructor; auto.
Qed.

Lemma delete_keyed k st : keyed st -> keyed (delete k st).
Proof.
  unfold keyed, delete, dict_pop. induction st as [|[k0 v0] st IH]; simpl;
    intros H; [constructor|].
  apply Forall_cons in H as [H0 H].
  destruct (bool_decide (k = k0)); simpl; [auto | constructor; auto].
Qed.

Lemma get_Some_elem k st s : get k st = Some s -> (k, s) ∈ st.
Proof.
  unfold get. induction st as [|[k0 v0] st IH]; simpl; [discriminate|].
  destruct (bool_decide_reflect (k = k0)) as [->|Hne].
  - intros [= ->]. apply list_elem_of_here.
  - intros H. apply list_elem_of_further. auto.
Qed.

Lemma elem_get k st s : dict_ok st -> (k, s) ∈ st -> get k st = Some s.
Proof.
  unfold get, dict_ok. induction st as [|[k0 v0] st IH]; simpl; intros Hd Hin.
  - now apply elem_of_nil in Hin.
  - apply NoDup_cons in Hd as [Hk0 Hd].
    apply elem_of_cons in Hin as [[= -> ->]|Hin].
    + now rewrite bool_decide_eq_true_2.
    + destruct (bool_decide_reflect (k = k0)) as [->|Hne]; [|auto].
      exfalso. apply Hk0. apply list_elem_of_fmap. now exists (k0, s).
Qed.

(** X1: a saved session is what [get] returns under its id and [exists]
    reports it; a second save under the same id replaces the first; the
    entries under other ids are as before. *)
Theorem store_save_get s st :
  get (session_id s) (save s st) = Some s /\
  exists_ (session_id s) (save s st) = true /\
  (forall s2, session_id s2 = session_id s ->
     get (session_id s) (save s2 (save s st)) = Some s2) /\
  (forall k, k <> session_id s ->
     get k (save s st) = get k st /\ exists_ k (save s st) = exists_ k st).
Proof.
  assert (Hget : forall s0 st0, get (session_id s0) (save s0 st0) = Some s0).
  { intros s0 st0. unfold get, save. rewrite dict_get_set.
    now rewrite bool_decide_eq_true_2. }
  split; [apply Hget|]. split; [now rewrite exists_get, Hget|].
  split.
  - intros s2 Hid. rewrite <- Hid. apply Hget.
  - intros k Hk. rewrite !exists_get. unfold get, save.
    rewrite dict_get_set. now rewrite bool_decide_eq_false_2.
Qed.

(** X2: after [delete] the id is gone for [get] and [exists] and every
    other id is untouched; deleting an id that is not stored leaves the
    store exactly as it was. *)
Theorem store_delete_get k st :
  get k (delete k st) = None /\
  exists_ k (delete k st) = false /\
  (forall k', k' <> k -> get k' (delete k st) = get k' st) /\
  (get k st = None -> delete k st = st).
Proof.
  assert (Hget : get k (delete k st) = None).
  { unfold get, delete. rewrite dict_get_pop.
    now rewrite bool_decide_eq_true_2. }
  split; [exact Hget|]. split; [now rewrite exists_get, Hget|].
  split.
  - intros k' Hk. unfold get, delete. rewrite dict_get_pop.
    now rewrite bool_decide_eq_false_2.
  - apply dict_pop_absent.
Qed.

Lemma store_delete_get_witness :
  delete "s9" [("s1", new_session "s1" "u1")] = [("s1", new_session "s1" "u1")].
Proof.
  destruct (store_delete_get "s9" [("s1", new_session "s1" "u1")])
    as (_ & _ & _ & Habsent).
  apply Habsent. reflexivity.
Defined.

(** X3: the two invariants of the store, distinct keys and every session
    filed under its own id, hold of the empty store and are kept by
    [save] and [delete]. *)
Theorem store_invariants_kept :
  (dict_ok (@nil (string * Session)) /\ keyed []) /\
  (forall s st, dict_ok st -> keyed st ->
     dict_ok (save s st) /\ keyed (save s st)) /\
  (forall k st, dict_ok st -> keyed st ->
     dict_ok (delete k st) /\ keyed (delete k st)).
Proof.
  split; [split; [apply NoDup_nil_2 | constructor]|]. split.
  - intros s st Hd Hk. split; [now apply dict_set_ok | now apply save_keyed].
  - intros k st Hd Hk. split; [now apply dict_pop_ok | now apply delete_keyed].
Qed.

Lemma store_invariants_kept_witness :
  dict_ok (save (new_session "s2" "u1") (save (new_session "s1" "u1") [])) /\
  keyed (save (new_session "s2" "u1") (save (new_session "s1" "u1") [])).
Proof.
  destruct store_invariants_kept as ([Hd0 Hk0] & Hsave & _).
  destruct (Hsave (new_session "s1" "u1") [] Hd0 Hk0) as [Hd1 Hk1].
  exact (Hsave (new_session "s2" "u1") _ Hd1 Hk1).
Defined.

(** X4: in a store with these invariants [list_by_user] lists exactly the
    stored sessions of that user, each once: a summary is listed if and
    only if it is the summary of a session that [get] returns under the
    listed id and whose [user_id] is the user's, and no session id is
    listed twice. *)
Theorem list_by_user_exact uid st :
  dict_ok st -> keyed st ->
  NoDup (map ss_session_id (list_by_user uid st)) /\
  (forall e, e ∈ list_by_user uid st <->
     exists s, get (ss_session_id e) st = Some s /\
               user_id s = Some uid /\ e = summary_of s).
Proof.
  intros Hd Hk. rewrite list_by_user_filter. split.
  - clear -Hd Hk. unfold dict_ok, keyed in *.
    induction st as [|[k0 v0] st IH]; simpl; [apply NoDup_nil_2|].
    apply NoDup_cons in Hd as [Hk0 Hd]. apply Forall_cons in Hk as [H0 Hk].
    simpl in H0. destruct (bool_decide _); simpl; [|now apply IH].
    apply NoDup_cons. split; [|now apply IH].
    intros Hin. apply Hk0.
    apply list_elem_of_fmap in Hin as (e & He & Hin).
    apply list_elem_of_fmap in Hin as (s & -> & Hin).
    apply list_elem_of_In, filter_In in Hin as [Hin _].
    apply list_elem_of_In, list_elem_of_fmap in Hin as ([k1 s1] & -> & Hin).
    simpl in He. rewrite Forall_forall in Hk.
    pose proof (Hk _ Hin) as Hkey. simpl in Hkey.
    apply list_elem_of_fmap. exists (k1, s1). simpl.
    split; [congruence | exact Hin].
  - intros e. split.
    + intros Hin. apply list_elem_of_fmap in Hin as (s & -> & Hin).
      apply list_elem_of_In, filter_In in Hin as [Hin Hu].
      apply bool_decide_eq_true_1 in Hu.
      apply list_elem_of_In, list_elem_of_fmap in Hin as ([k1 s1] & -> & Hin).
      exists s1. simpl. split; [|split; [exact Hu | reflexivity]].
      unfold keyed in Hk. rewrite Forall_forall in Hk.
      pose proof (Hk _ Hin) as Hkey. simpl in Hkey. rewrite Hkey.
      now apply elem_get.
    + intros (s & Hget & Hu & ->). apply list_elem_of_fmap. exists s.
      split; [reflexivity|]. apply list_elem_of_In, filter_In. split.
      * apply list_elem_of_In, list_elem_of_fmap.
        exists (ss_session_id (summary_of s), s). split; [reflexivity|].
        now apply get_Some_elem.
      * now apply bool_decide_eq_true_2.
Qed.

Lemma list_by_user_exact_witness :
  NoDup (map ss_session_id
           (list_by_user "u1"
              (save (new_session "s2" "u1") (save (new_session "s1" "u2") [])))).
Proof.
  apply (list_by_user_exact "u1").
  - apply dict_set_ok, dict_set_ok, NoDup_nil_2.
  - apply save_keyed, save_keyed. constructor.
Defined.

Lemma store_save_get_witness :
  get "s1" (save (set_turn_count 1 (new_session "s1" "u1"))
              (save (new_session "s1" "u1") []))
  = Some (set_turn_count 1 (new_session "s1" "u1")).
Proof.
  destruct (store_save_get (new_session "s1" "u1") []) as (_ & _ & Hagain & _).
  exact (Hagain (set_turn_count 1 (new_session "s1" "u1")) eq_refl).
Defined.

Lemma save_present_keys s st s0 :
  get (session_id s) st = Some s0 -> map fst (save s st) = map fst st.
Proof.
  intros H. unfold save. rewrite dict_set_keys. unfold get in H. now rewrite H.
Qed.

(** X5: saving a session that is already stored keeps the position of
    its entry: the ids are in the same order as before, and, when the
    owner is unchanged, so are the ids [list_by_user] lists for any
    user.  A session saved under a new id goes to the end. *)
Theorem save_keeps_listing_order s st :
  (forall s0, get (session_id s) st = Some s0 ->
     map fst (save s st) = map fst st /\
     (keyed st -> user_id s0 = user_id s ->
      forall uid,
        map ss_session_id (list_by_user uid (save s st)) =
        map ss_session_id (list_by_user uid st))) /\
  (get (session_id s) st = None -> save s st = st ++ [(session_id s, s)]).
Proof.
  split.
  - intros s0 Hget. split; [now apply (save_present_keys s st s0)|].
    intros Hk Hu uid. rewrite !list_by_user_filter.
    revert Hget Hk. unfold get, save, keyed.
    induction st as [|[k0 v0] st IH]; simpl; [discriminate|].
    intros Hget Hk. apply Forall_cons in Hk as [H0 Hk]. simpl in H0.
    destruct (bool_decide_reflect (session_id s = k0)) as [Heq|Hne]; simpl.
    + injection Hget as ->. rewrite Hu.
      destruct (bool_decide (user_id s = Some uid)); simpl; [|reflexivity].
      f_equal. congruence.
    + destruct (bool_decide (user_id v0 = Some uid)); simpl;
        [f_equal|]; now apply IH.
  - unfold get, save. induction st as [|[k0 v0] st IH]; simpl; [reflexivity|].
    destruct (bool_decide (session_id s = k0)); [discriminate|].
    intros H. now rewrite IH.
Qed.

Lemma save_keeps_listing_order_witness :
  map fst (save (set_turn_count 1 (new_session "s1" "u1"))
             [("s1", new_session "s1" "u1"); ("s2", new_session "s2" "u1")])
  = ["s1"; "s2"].
Proof.
  destruct (save_keeps_listing_order
              (set_turn_count 1 (new_session "s1" "u1"))
              [("s1", new_session "s1" "u1"); ("s2", new_session "s2" "u1")])
    as [Hpresent _].
  exact (proj1 (Hpresent (new_session "s1" "u1") eq_refl)).
Defined.

(** X6: read as a finite map, the store answers [get] by lookup, and
    [save] and [delete] are the insertion and the removal of the map
    the endpoints are stated on. *)
Theorem store_as_map st :
  (forall k, get k st = to_map st !! k) /\
  (forall s, to_map (save s st) = map_save s (to_map st)) /\
  (forall k, to_map (delete k st) = base.delete k (to_map st)).
Proof.
  split; [intros k; apply get_to_map|]. split.
  - intros s. apply map_eq. intros k. rewrite <- get_to_map.
    rewrite lookup_map_save, <- get_to_map.
    unfold get, save. now rewrite dict_get_set.
  - intros k. apply map_eq. intros k'. rewrite <- get_to_map.
    rewrite lookup_delete, <- get_to_map.
    unfold get, delete. rewrite dict_get_pop.
    destruct (bool_decide_reflect (k' = k)) as [->|Hne].
    + now rewrite decide_True.
    + now rewrite decide_False by congruence.
Qed.

End StoreFacts.

(** ** backend/server.py: the other session endpoints *)

Record SessionInfo := {
  si_session_id : string;
  si_turn_count : Z;
  si_current_plan : option Plan;
  si_plan_versions : list PlanVersion;
  si_user_preferences : gmap string string;
  si_conversation_summary : option string;
  has_compressed_context : bool
}.

Record SummaryInfo := {
  sm_session_id : string;
  sm_turn_count : Z;
  sm_conversation_summary : option string;
  has_plan : bool;
  sm_plan_version : Z
}.

(** [uuid] is the value [uuid.uuid4()] returns. *)
Definition create_session (uuid : string) (user : User)
    (store : gmap string Session) : gmap string Session * string :=
  let session_id := uuid in
  let session0 := new_session session_id (u_user_id user) in
  (save session0 store, session_id).

Definition get_session (store : gmap string Session) (sid : string)
    (user : User) : result SessionInfo :=
  match store !! sid with
  | None => Raise (HTTPException 404 "Session not found.")
  | Some session0 =>
      if bool_decide (user_id session0 = Some (u_user_id user)) then
        Ok {| si_session_id := session_id session0;
              si_turn_count := turn_count session0;
              si_current_plan := current_plan session0;
              si_plan_versions := plan_versions session0;
              si_user_preferences := user_preferences session0;
              si_conversation_summary := conversation_summary session0;
              has_compressed_context :=
                is_Some_b (compressed_context session0) |}
      else Raise (HTTPException 403 "Access denied.")
  end.

Definition get_plan_versions (store : gmap string Session) (sid : string)
    (user : User) : result (list PlanVersion) :=
  match store !! sid with
  | None => Raise (HTTPException 404 "Session not found.")
  | Some session0 =>
      if bool_decide (user_id session0 = Some (u_user_id user)) then
        Ok (plan_versions session0)
      else Raise (HTTPException 403 "Access denied.")
  end.

Definition get_conversation_summary (store : gmap string Session)
    (sid : string) (user : User) : result SummaryInfo :=
  match store !! sid with
  | None => Raise (HTTPException 404 "Session not found.")
  | Some session0 =>
      if bool_decide (user_id session0 = Some (u_user_id user)) then
        Ok {| sm_session_id := session_id session0;
              sm_turn_count := turn_count session0;
              sm_conversation_summary := conversation_summary session0;
              has_plan := is_Some_b (current_plan session0);
              sm_plan_version :=
                if is_nil (plan_versions session0) then 0
                else Z.of_nat (length (plan_versions session0)) |}
      else Raise (HTTPException 403 "Access denied.")
  end.

Definition is_status {A} (code : Z) (r : result A) : Prop :=
  match r with
  | Raise (HTTPException c _) => c = code
  | _ => False
  end.

(** X7: the five session endpoints check the session and its owner
    before anything else.  For an id that is not stored they answer 404,
    and for a session whose [user_id] is not the caller's they answer
    403; for [chat] this holds whatever the language model would do, so
    the agent is not run. *)
Theorem endpoints_check_owner_first store sid user :
  (store !! sid = None ->
   (forall env msg,
      is_status 404
        (chat env store {| req_session_id := sid; message := msg |} user)) /\
   is_status 404 (get_session store sid user) /\
   is_status 404 (get_history store sid user) /\
   is_status 404 (get_plan_versions store sid user) /\
   is_status 404 (get_conversation_summary store sid user)) /\
  (forall s, store !! sid = Some s -> user_id s <> Some (u_user_id user) ->
   (forall env msg,
      chat env store {| req_session_id := sid; message := msg |} user
      = Raise (HTTPException 403 "Access denied.")) /\
   get_session store sid user = Raise (HTTPException 403 "Access denied.") /\
   get_history store sid user = Raise (HTTPException 403 "Access denied.") /\
   get_plan_versions store sid user
     = Raise (HTTPException 403 "Access denied.") /\
   get_conversation_summary store sid user
     = Raise (HTTPException 403 "Access denied.")).
Proof.
  split.
  - intros Hnone.
    unfold chat, get_session, get_history, get_plan_versions,
      get_conversation_summary. simpl. rewrite Hnone. simpl.
    repeat split.
  - intros s Hs Hu.
    unfold chat, get_session, get_history, get_plan_versions,
      get_conversation_summary. simpl. rewrite Hs.
    rewrite bool_decide_eq_false_2 by exact Hu. repeat split.
Qed.

Definition other_user : User := {| u_user_id := "u2"; email := "u2@example.org" |}.

Lemma endpoints_check_owner_first_witness :
  (forall env msg,
     chat env demo_store {| req_session_id := "s1"; message := msg |} other_user
     = Raise (HTTPException 403 "Access denied.")) /\
  is_status 404 (get_session demo_store "s7" demo_user).
Proof.
  destruct (endpoints_check_owner_first demo_store "s1" other_user)
    as [_ Hforeign].
  destruct (endpoints_check_owner_first demo_store "s7" demo_user)
    as [Hmissing _].
  assert (Hget : demo_store !! "s1" = Some (new_session "s1" "u1"))
    by (vm_compute; reflexivity).
  assert (Hne : user_id (new_session "s1" "u1") <> Some (u_user_id other_user))
    by discriminate.
  split.
  - exact (proj1 (Hforeign _ Hget Hne)).
  - assert (Hnone : demo_store !! "s7" = None) by (vm_compute; reflexivity).
    exact (proj1 (proj2 (Hmissing Hnone))).
Defined.

(** ** A whole turn, stage by stage *)

(** The session [preprocess_node] hands to [maybe_compress]. *)
Definition ingested (env : TurnEnv) (s : Session) (input : string) : Session :=
  set_user_preferences (extract_preferences input (user_preferences s))
    (set_turn_count (turn_count s + 1)
       (set_messages
          (messages s ++
           [ {| role := USER; content := input;
                timestamp := now_user env; is_blocked := false |} ])
          s)).

(** The text of the assistant message a turn records. *)
Definition recorded_reply (agent_resp : option AgentResponse)
    (err : option string) : string :=
  match usable_response err agent_resp with
  | Some a => response_to_user a
  | None => fallback
  end.

Lemma run_agent_stages env s input s' agent_resp err :
  run_agent env s input = Ok (s', agent_resp, err) ->
  exists s4,
    maybe_compress (ingested env s input) (_get_llm env) (now_digest env)
      = Ok s4 /\
    s' = session (postprocess_node env
                    {| session := s4; user_input := input;
                       agent_response := agent_resp; error := err |}).
Proof.
  intros H. destruct (run_agent_inv _ _ _ _ _ _ H) as (st1 & Hpre & -> & -> & ->).
  unfold preprocess_node in Hpre. simpl in Hpre. fold (ingested env s input) in Hpre.
  destruct (maybe_compress _ _ _) as [s4|e] eqn:Hc; simpl in Hpre; [|discriminate].
  injection Hpre as <-. exists s4. split; [reflexivity|].
  unfold generate_node. simpl.
  now destruct (ainvoke_structured _ _).
Qed.

Lemma maybe_compress_trims s llm now s' :
  maybe_compress s llm now = Ok s' ->
  s' = set_messages (messages s')
         (set_compressed_context (compressed_context s') s) /\
  exists k,
    messages s' = drop k (messages s) /\
    (k = 0%nat \/
     ((keep_recent < length (messages s))%nat /\
      k = (length (messages s) - keep_recent)%nat)).
Proof.
  intros H.
  destruct (maybe_compress_cases _ _ _ _ H) as [[-> _]|(c & _ & ->)].
  - split; [now destruct s|]. exists 0%nat. split; [reflexivity | now left].
  - split; [reflexivity|]. simpl. unfold recent_messages.
    destruct (keep_recent <? length (messages s))%nat eqn:Hlen.
    + eexists. split; [reflexivity|]. right. split; [|reflexivity].
      now apply Nat.ltb_lt.
    + exists 0%nat. split; [reflexivity | now left].
Qed.

(** X8: [maybe_compress] only trims the front of the log.  The session
    it returns differs from the one it was given in [messages] and
    [compressed_context] at most; its messages are the last messages of
    the input in the same order, either all of them or, when there were
    more than four, exactly the last four. *)
Theorem maybe_compress_only_trims s llm now s' :
  maybe_compress s llm now = Ok s' ->
  s' = set_messages (messages s')
         (set_compressed_context (compressed_context s') s) /\
  (messages s' = messages s \/
   ((4 < length (messages s))%nat /\
    messages s' = drop (length (messages s) - 4) (messages s) /\
    length (messages s') = 4%nat)) /\
  (forall m, last (messages s) = Some m -> last (messages s') = Some m).
Proof.
  intros H. destruct (maybe_compress_trims _ _ _ _ H) as [Hs (k & Hk & Hcase)].
  split; [exact Hs|]. unfold keep_recent in Hcase.
  split.
  - destruct Hcase as [->|[Hlen ->]]; [left; now rewrite Hk|].
    right. split; [exact Hlen|]. split; [exact Hk|].
    rewrite Hk, length_drop. lia.
  - intros m Hm. rewrite Hk.
    destruct Hcase as [->|[Hlen ->]]; [exact Hm|].
    apply last_Some in Hm as [l' Hl']. rewrite Hl' in *.
    rewrite length_app in *. simpl in *.
    rewrite drop_app_le by lia. apply last_snoc.
Qed.

Lemma maybe_compress_only_trims_witness :
  messages compressed_once
  = drop (length (messages five_long_messages) - 4)
         (messages five_long_messages).
Proof.
  assert (Hrun : maybe_compress five_long_messages (summary_llm (Ok "digest")) 0
                 = Ok compressed_once).
  { rewrite maybe_compress_summarises.
    - reflexivity.
    - rewrite total_chars_five_long_messages. vm_compute. discriminate.
    - left. reflexivity. }
  destruct (maybe_compress_only_trims _ _ _ _ Hrun) as (_ & [Hsame|Hcut] & _).
  - apply (f_equal length) in Hsame. discriminate Hsame.
  - exact (proj1 (proj2 Hcut)).
Defined.

(** The fields no stage of a turn assigns. *)
Definition fixed_fields (s : Session)
    : string * option string * option string * option string * option string :=
  (session_id s, user_id s, plan_name s, plan_summary s, change_summary s).

Lemma postprocess_node_fields env state :
  let s := session state in
  let s' := session (postprocess_node env state) in
  fixed_fields s' = fixed_fields s /\
  user_preferences s' = user_preferences s /\
  compressed_context s' = compressed_context s /\
  messages s' =
    messages s ++
    [ {| role := ASSISTANT;
         content := recorded_reply (agent_response state) (error state);
         timestamp := now_reply env; is_blocked := false |} ] /\
  conversation_summary s' =
    match usable_response (error state) (agent_response state) with
    | Some a =>
        if truthy_opt (ar_conversation_summary a)
        then ar_conversation_summary a else conversation_summary s
    | None => conversation_summary s
    end.
Proof.
  unfold postprocess_node, recorded_reply.
  destruct (usable_response _ _) as [a|]; simpl; [|repeat split].
  unfold apply_action.
  destruct (action a), (plan a), (truthy_opt (ar_conversation_summary a));
    simpl; repeat split.
Qed.

(** X9: what a completed turn does to the fields outside the plan state.
    It never changes [session_id], [user_id], [plan_name] or the
    session's own [plan_summary] and [change_summary]; it always records
    the preferences found in the user's message, also when the decision
    failed; and it overwrites [conversation_summary] only with a
    non-empty summary of a usable decision, keeping the old one
    otherwise. *)
Theorem run_agent_other_fields env s input s' agent_resp err :
  run_agent env s input = Ok (s', agent_resp, err) ->
  session_id s' = session_id s /\
  user_id s' = user_id s /\
  plan_name s' = plan_name s /\
  plan_summary s' = plan_summary s /\
  change_summary s' = change_summary s /\
  user_preferences s' = extract_preferences input (user_preferences s) /\
  conversation_summary s' =
    match usable_response err agent_resp with
    | Some a =>
        if truthy_opt (ar_conversation_summary a)
        then ar_conversation_summary a else conversation_summary s
    | None => conversation_summary s
    end.
Proof.
  intros H. destruct (run_agent_stages _ _ _ _ _ _ H) as (s4 & Hc & ->).
  destruct (postprocess_node_fields env
              {| session := s4; user_input := input;
                 agent_response := agent_resp; error := err |})
    as (Hfix & Hprefs & _ & _ & Hsum).
  simpl in Hfix, Hprefs, Hsum.
  destruct (maybe_compress_trims _ _ _ _ Hc) as [Hs4 _].
  assert (Hfix4 : fixed_fields s4 = fixed_fields s) by now rewrite Hs4.
  assert (Hprefs4 : user_preferences s4
                    = extract_preferences input (user_preferences s))
    by now rewrite Hs4.
  assert (Hsum4 : conversation_summary s4 = conversation_summary s)
    by now rewrite Hs4.
  rewrite Hfix4 in Hfix. injection Hfix as -> -> -> -> ->.
  rewrite Hprefs, Hprefs4, Hsum, Hsum4. repeat split.
Qed.

Definition degraded_turn : Session * option AgentResponse * option string :=
  get_ok (run_agent failing_env (new_session "s1" "u1") "a brief answer please")
         (new_session "s1" "u1", None, None).

Lemma degraded_turn_ok :
  run_agent failing_env (new_session "s1" "u1") "a brief answer please"
  = Ok (degraded_turn.1.1, degraded_turn.1.2, degraded_turn.2).
Proof. vm_compute. reflexivity. Qed.

Lemma run_agent_other_fields_witness :
  user_id degraded_turn.1.1 = Some "u1" /\
  user_preferences degraded_turn.1.1
  = extract_preferences "a brief answer please" ∅.
Proof.
  destruct (run_agent_other_fields _ _ _ _ _ _ degraded_turn_ok)
    as (_ & Hu & _ & _ & _ & Hp & _).
  split; [exact Hu | exact Hp].
Defined.

(** X10: the log after a completed turn.  Its last two messages are the
    user's message of this turn and the assistant's reply, in that order
    and neither blocked, also when compression fired in the turn; before
    them come the last messages of the old log, all of them or the last
    three.  The reply recorded is the decision's [response_to_user], or
    the fallback sentence when the decision failed. *)
Theorem turn_ends_with_user_and_reply env s input s' agent_resp err :
  run_agent env s input = Ok (s', agent_resp, err) ->
  exists k,
    (k = 0%nat \/ k = (length (messages s) - 3)%nat) /\
    messages s' =
      drop k (messages s) ++
      [ {| role := USER; content := input;
           timestamp := now_user env; is_blocked := false |};
        {| role := ASSISTANT; content := recorded_reply agent_resp err;
           timestamp := now_reply env; is_blocked := false |} ].
Proof.
  intros H. destruct (run_agent_stages _ _ _ _ _ _ H) as (s4 & Hc & ->).
  destruct (postprocess_node_fields env
              {| session := s4; user_input := input;
                 agent_response := agent_resp; error := err |})
    as (_ & _ & _ & Hm & _).
  simpl in Hm. rewrite Hm.
  destruct (maybe_compress_trims _ _ _ _ Hc) as [_ (k & Hk & Hcase)].
  simpl in Hk, Hcase. rewrite length_app in Hcase. simpl in Hcase.
  unfold keep_recent in Hcase. exists k. split; [lia|].
  rewrite Hk, drop_app_le by lia. now rewrite <- app_assoc.
Qed.

Lemma turn_ends_with_user_and_reply_witness :
  exists k,
    messages degraded_turn.1.1 =
      drop k [] ++
      [ {| role := USER; content := "a brief answer please";
           timestamp := 1; is_blocked := false |};
        {| role := ASSISTANT; content := fallback;
           timestamp := 3; is_blocked := false |} ].
Proof.
  destruct (turn_ends_with_user_and_reply _ _ _ _ _ _ degraded_turn_ok)
    as (k & _ & Hm).
  exists k. exact Hm.
Defined.

Lemma preprocess_node_ingested env s input a e :
  preprocess_node env
    {| session := s; user_input := input; agent_response := a; error := e |}
  = (s4 <- maybe_compress (ingested env s input) (_get_llm env)
             (now_digest env) ;;
     Ok {| session := s4; user_input := input;
           agent_response := a; error := e |}).
Proof. reflexivity. Qed.

(** X11: the first turns cannot be aborted by the summariser.  On a
    session without digest and with at most three messages a turn
    completes for every behaviour of the language model, a raising
    summariser included, however long the messages are; it adds exactly
    two messages and leaves [compressed_context] as it was. *)
Theorem short_session_turn_completes env s input :
  truthy_opt (compressed_context s) = false ->
  (length (messages s) <= 3)%nat ->
  exists s' agent_resp err,
    run_agent env s input = Ok (s', agent_resp, err) /\
    length (messages s') = (length (messages s) + 2)%nat /\
    compressed_context s' = compressed_context s.
Proof.
  intros Hcc Hlen.
  assert (Hc : maybe_compress (ingested env s input) (_get_llm env)
                 (now_digest env) = Ok (ingested env s input)).
  { apply maybe_compress_nothing_useful; [|exact Hcc].
    simpl. rewrite length_app. simpl. unfold keep_recent. lia. }
  unfold run_agent. rewrite preprocess_node_ingested, Hc. simpl bind.
  do 3 eexists. split; [reflexivity|].
  match goal with
  | |- context [postprocess_node env ?st] =>
      destruct (postprocess_node_fields env st) as (_ & _ & Hcc' & Hm & _)
  end.
  rewrite generate_node_session in Hcc', Hm. simpl in Hcc', Hm.
  rewrite Hm, Hcc', !length_app. simpl. split; [lia | reflexivity].
Qed.

Definition raising_env : TurnEnv :=
  {| _get_llm :=
       {| summarize := fun _ _ _ => Raise (Exception "summariser down");
          ainvoke_structured := fun _ => Raise (Exception "model down") |};
     now_user := 1; now_digest := 2; now_reply := 3; now_version := 4 |}.

Lemma short_session_turn_completes_witness :
  exists s' agent_resp err,
    run_agent raising_env one_long_message "hello" = Ok (s', agent_resp, err) /\
    length (messages s') = 3%nat.
Proof.
  assert (Hlen : (length (messages one_long_message) <= 3)%nat).
  { unfold one_long_message, session_with. simpl. lia. }
  destruct (short_session_turn_completes raising_env one_long_message "hello"
              eq_refl Hlen)
    as (s' & r & e & Hrun & Hm & _).
  exists s', r, e. split; [exact Hrun | exact Hm].
Defined.

(** ** The plan log of a reachable session *)

Definition plan_log_ok (s : Session) : Prop :=
  current_plan s = pv_plan <$> last (plan_versions s) /\
  Forall (fun pv => truthy (pv_change_summary pv) = true) (plan_versions s) /\
  Z.of_nat (length (plan_versions s)) <= turn_count s.

Lemma str_or_truthy o generic :
  truthy generic = true -> truthy (str_or o generic) = true.
Proof.
  intros Hg. unfold str_or. destruct o as [c|]; [|exact Hg].
  destruct (truthy c) eqn:Hc; [exact Hc | exact Hg].
Qed.

Lemma apply_action_plan_log env a s :
  current_plan s = pv_plan <$> last (plan_versions s) ->
  Forall (fun pv => truthy (pv_change_summary pv) = true) (plan_versions s) ->
  let s' := apply_action env a s in
  current_plan s' = pv_plan <$> last (plan_versions s') /\
  Forall (fun pv => truthy (pv_change_summary pv) = true) (plan_versions s') /\
  (length (plan_versions s') <= length (plan_versions s) + 1)%nat /\
  turn_count s' = turn_count s.
Proof.
  intros Hcur Hall. unfold apply_action.
  destruct (action a), (plan a) as [p|]; simpl;
    try (repeat split; [exact Hcur | exact Hall | lia]).
  all: rewrite last_snoc; split; [reflexivity|];
    split; [|rewrite length_app; simpl; split; [lia | reflexivity]];
    apply Forall_app; split; [exact Hall|];
    constructor; [|constructor]; simpl; now apply str_or_truthy.
Qed.

Lemma run_agent_plan_log env s input s' agent_resp err :
  run_agent env s input = Ok (s', agent_resp, err) ->
  plan_log_ok s -> plan_log_ok s'.
Proof.
  intros H (Hcur & Hall & Hcount).
  destruct (run_agent_stages _ _ _ _ _ _ H) as (s4 & Hc & ->).
  destruct (maybe_compress_trims _ _ _ _ Hc) as [Hs4 _].
  assert (H4 : current_plan s4 = current_plan s /\
               plan_versions s4 = plan_versions s /\
               turn_count s4 = turn_count s + 1) by now rewrite Hs4.
  destruct H4 as (Hc4 & Hv4 & Ht4).
  unfold postprocess_node. simpl.
  destruct (usable_response err agent_resp) as [a|]; simpl.
  - pose proof (apply_action_plan_log env a
                  (append_assistant env (response_to_user a) s4)) as Ha.
    simpl in Ha. rewrite Hc4, Hv4 in Ha.
    destruct (Ha Hcur Hall) as (Hcur' & Hall' & Hlen' & Ht').
    unfold plan_log_ok.
    destruct (truthy_opt (ar_conversation_summary a)); simpl;
      (split; [exact Hcur'|]; split; [exact Hall'|]);
      rewrite Ht'; simpl; lia.
  - unfold plan_log_ok. simpl. rewrite Hc4, Hv4, Ht4.
    split; [exact Hcur|]. split; [exact Hall | lia].
Qed.

Lemma run_turns_plan_log turns : forall s s' log,
  run_turns s turns = Ok (s', log) -> plan_log_ok s -> plan_log_ok s'.
Proof.
  induction turns as [|[env input] rest IH]; intros s s' log H Hok; simpl in H.
  - now injection H as <- _.
  - destruct (run_agent env s input) as [[[s1 r1] e1]|e] eqn:Hrun;
      simpl in H; [|discriminate].
    destruct (run_turns s1 rest) as [[s2 log2]|e] eqn:Hrest;
      simpl in H; [|discriminate].
    injection H as <- _.
    eapply IH; [exact Hrest|]. eapply run_agent_plan_log; eauto.
Qed.

(** X12: in every session reached from a new one by completed turns the
    confirmed plan is the plan of the latest version, so there is a
    [current_plan] exactly when there is a version; every version has a
    non-empty change summary (the generic sentence stands in for a
    missing or empty one); and there are never more versions than
    turns. *)
Theorem reachable_plan_log sid uid turns s' log :
  run_turns (new_session sid uid) turns = Ok (s', log) ->
  current_plan s' = pv_plan <$> last (plan_versions s') /\
  (current_plan s' = None <-> plan_versions s' = []) /\
  Forall (fun pv => truthy (pv_change_summary pv) = true) (plan_versions s') /\
  Z.of_nat (length (plan_versions s')) <= turn_count s'.
Proof.
  intros H.
  assert (H0 : plan_log_ok (new_session sid uid)).
  { unfold plan_log_ok. simpl. repeat split; [constructor | lia]. }
  destruct (run_turns_plan_log _ _ _ _ H H0) as (Hcur & Hall & Hcount).
  split; [exact Hcur|]. split; [|split; [exact Hall | exact Hcount]].
  rewrite Hcur. split.
  - intros Hnone. apply fmap_None in Hnone. now apply last_None.
  - now intros ->.
Qed.

Lemma reachable_plan_log_witness :
  current_plan demo_run.1 = pv_plan <$> last (plan_versions demo_run.1) /\
  Z.of_nat (length (plan_versions demo_run.1)) <= turn_count demo_run.1.
Proof.
  assert (Hrun : run_turns (new_session "s1" "u1") demo_turns
                 = Ok (demo_run.1, demo_run.2)) by (vm_compute; reflexivity).
  destruct (reachable_plan_log _ _ _ _ _ Hrun) as (Hcur & _ & _ & Hcount).
  split; [exact Hcur | exact Hcount].
Defined.

(** ** A chat turn and the read endpoints *)

Lemma run_agent_identity env s input s' agent_resp err :
  run_agent env s input = Ok (s', agent_resp, err) ->
  session_id s' = session_id s /\ user_id s' = user_id s.
Proof.
  intros Hrun. destruct (run_agent_stages _ _ _ _ _ _ Hrun) as (s4 & Hc & ->).
  destruct (postprocess_node_fields env
              {| session := s4; user_input := input;
                 agent_response := agent_resp; error := err |}) as (Hfix & _).
  simpl in Hfix. destruct (maybe_compress_trims _ _ _ _ Hc) as [Hs4 _].
  assert (Hfix4 : fixed_fields s4 = fixed_fields s) by now rewrite Hs4.
  rewrite Hfix4 in Hfix. injection Hfix as Hi Hu _ _ _. now split.
Qed.

Lemma run_agent_log_tail env s input s' agent_resp err :
  run_agent env s input = Ok (s', agent_resp, err) ->
  exists k,
    messages s' =
      drop k (messages s) ++
      [ {| role := USER; content := input;
           timestamp := now_user env; is_blocked := false |};
        {| role := ASSISTANT; content := recorded_reply agent_resp err;
           timestamp := now_reply env; is_blocked := false |} ].
Proof.
  intros H. destruct (run_agent_stages _ _ _ _ _ _ H) as (s4 & Hc & ->).
  destruct (postprocess_node_fields env
              {| session := s4; user_input := input;
                 agent_response := agent_resp; error := err |})
    as (_ & _ & _ & Hm & _).
  simpl in Hm. rewrite Hm.
  destruct (maybe_compress_trims _ _ _ _ Hc) as [_ (k & Hk & Hcase)].
  simpl in Hk, Hcase. rewrite length_app in Hcase. simpl in Hcase.
  unfold keep_recent in Hcase. exists k.
  rewrite Hk, drop_app_le by lia. now rewrite <- app_assoc.
Qed.

Lemma chat_inv env store sid msg user store' resp :
  chat env store {| req_session_id := sid; message := msg |} user
    = Ok (store', resp) ->
  exists s s' agent_resp err,
    store !! sid = Some s /\
    user_id s = Some (u_user_id user) /\
    run_agent env s msg = Ok (s', agent_resp, err) /\
    store' = save s' store /\
    cr_turn_count resp = turn_count s' /\
    plan_version resp = versions_count s' /\
    response resp =
      match usable_response err agent_resp with
      | Some a => response_to_user a
      | None => chat_fallback
      end /\
    cr_plan resp =
      match usable_response err agent_resp with
      | Some a => match action a with
                  | NONE => current_plan s'
                  | _ => plan a
                  end
      | None => current_plan s'
      end /\
    cr_action resp =
      match usable_response err agent_resp with
      | Some a => action a
      | None => NONE
      end.
Proof.
  unfold chat. simpl.
  destruct (store !! sid) as [s|] eqn:Hs; [|discriminate].
  destruct (bool_decide_reflect (user_id s = Some (u_user_id user)))
    as [Hu|Hu]; [|discriminate].
  destruct (run_agent env s msg) as [[[s' r] e]|x] eqn:Hrun; simpl;
    [|discriminate].
  intros H. exists s, s', r, e.
  destruct (usable_response e r) as [a|]; injection H as <- <-;
    repeat split; assumption.
Qed.

Lemma versions_count_default s :
  default 0 (versions_count s) = Z.of_nat (length (plan_versions s)).
Proof. unfold versions_count. now destruct (plan_versions s). Qed.

(** X13: what the read endpoints show after a completed chat turn on a
    session stored under its own id.  The turn rewrites that entry of
    the store and no other; the session stays with its owner; and the
    summary and versions endpoints agree with the chat response: the
    same turn count, and as many versions as [plan_version] says, where
    an absent [plan_version] stands for none. *)
Theorem chat_then_read_endpoints env store sid msg user s store' resp :
  store !! sid = Some s ->
  session_id s = sid ->
  chat env store {| req_session_id := sid; message := msg |} user
    = Ok (store', resp) ->
  (forall k, k <> sid -> store' !! k = store !! k) /\
  exists s' info,
    store' !! sid = Some s' /\
    session_id s' = sid /\ user_id s' = Some (u_user_id user) /\
    get_plan_versions store' sid user = Ok (plan_versions s') /\
    Z.of_nat (length (plan_versions s')) = default 0 (plan_version resp) /\
    get_conversation_summary store' sid user = Ok info /\
    sm_turn_count info = cr_turn_count resp /\
    sm_plan_version info = default 0 (plan_version resp) /\
    has_plan info = is_Some_b (current_plan s').
Proof.
  intros Hs Hid Hchat.
  destruct (chat_inv _ _ _ _ _ _ _ Hchat)
    as (s0 & s' & r & e & Hs0 & Hu & Hrun & -> & Htc & Hpv & _).
  rewrite Hs in Hs0. injection Hs0 as <-.
  destruct (run_agent_identity _ _ _ _ _ _ Hrun) as [Hsid Hu'].
  rewrite Hid in Hsid. rewrite Hu in Hu'.
  assert (Hlook : save s' store !! sid = Some s').
  { unfold save. rewrite Hsid. apply lookup_insert_eq. }
  split.
  - intros k Hk. unfold save. rewrite Hsid. now apply lookup_insert_ne.
  - exists s'. eexists. split; [exact Hlook|].
    split; [exact Hsid|]. split; [exact Hu'|].
    unfold get_plan_versions, get_conversation_summary. rewrite Hlook.
    rewrite bool_decide_eq_true_2 by exact Hu'.
    split; [reflexivity|]. rewrite Hpv, versions_count_default.
    split; [reflexivity|]. split; [reflexivity|]. simpl.
    split; [now rewrite Htc|]. split; [|reflexivity].
    now destruct (plan_versions s').
Qed.

Definition proposed_chat : gmap string Session * ChatResponse :=
  get_ok (chat proposing_env demo_store hello demo_user)
         (demo_store,
          {| response := ""; cr_plan := None; cr_action := NONE;
             cr_change_summary := None; cr_plan_summary := None;
             cr_conversation_summary := None; cr_turn_count := 0;
             plan_version := None; awaiting_confirmation := false |}).

Lemma proposed_chat_ok :
  chat proposing_env demo_store hello demo_user
  = Ok (proposed_chat.1, proposed_chat.2).
Proof. vm_compute. reflexivity. Qed.

Lemma chat_then_read_endpoints_witness :
  exists info,
    get_conversation_summary proposed_chat.1 "s1" demo_user = Ok info /\
    sm_turn_count info = cr_turn_count proposed_chat.2.
Proof.
  assert (Hget : demo_store !! "s1" = Some (new_session "s1" "u1"))
    by (vm_compute; reflexivity).
  destruct (chat_then_read_endpoints _ _ _ _ _ _ _ _ Hget eq_refl
              proposed_chat_ok)
    as (_ & s' & info & _ & _ & _ & _ & _ & Hsum & Htc & _).
  exists info. split; [exact Hsum | exact Htc].
Defined.

(** X14: after a completed chat turn the history endpoint ends with the
    user's message and the assistant's reply.  When the turn's decision
    was usable, the reply listed is its [response_to_user], which is
    also the text of the chat response; when the decision failed, the
    history holds the agent's fallback sentence while the response
    carried the endpoint's own, different, apology and action NONE. *)
Theorem chat_then_history env store sid msg user s s' agent_resp err
    store' resp :
  store !! sid = Some s ->
  session_id s = sid ->
  run_agent env s msg = Ok (s', agent_resp, err) ->
  chat env store {| req_session_id := sid; message := msg |} user
    = Ok (store', resp) ->
  exists front reply,
    get_history store' sid user =
      Ok (front ++
          [ {| h_role := "user"; h_content := msg;
               h_timestamp := now_user env |};
            {| h_role := "assistant"; h_content := reply;
               h_timestamp := now_reply env |} ]) /\
    (forall a, usable_response err agent_resp = Some a ->
       reply = response_to_user a /\ response resp = reply) /\
    (usable_response err agent_resp = None ->
       reply = fallback /\ response resp = chat_fallback /\
       response resp <> reply /\ cr_action resp = NONE).
Proof.
  intros Hs Hid Hrun Hchat.
  destruct (chat_inv _ _ _ _ _ _ _ Hchat)
    as (s0 & s1 & r & e & Hs0 & Hu & Hrun' & -> & _ & _ & Hresp & _ & Hact).
  rewrite Hs in Hs0. injection Hs0 as <-.
  rewrite Hrun in Hrun'. injection Hrun' as <- <- <-.
  destruct (run_agent_identity _ _ _ _ _ _ Hrun) as [Hsid Hu'].
  destruct (run_agent_log_tail _ _ _ _ _ _ Hrun) as (k & Hm).
  assert (Hlook : save s' store !! sid = Some s').
  { unfold save. rewrite Hsid, Hid. apply lookup_insert_eq. }
  exists (map history_entry (drop k (messages s))),
         (recorded_reply agent_resp err).
  split; [|split].
  - unfold get_history. rewrite Hlook.
    rewrite bool_decide_eq_true_2 by congruence.
    rewrite Hm, map_app. reflexivity.
  - intros a Ha. unfold recorded_reply. rewrite Hresp, Ha. now split.
  - intros Hnone. unfold recorded_reply. rewrite Hresp, Hact, Hnone.
    repeat split. discriminate.
Qed.

Definition failed_chat : gmap string Session * ChatResponse :=
  get_ok (chat failing_env demo_store
            {| req_session_id := "s1"; message := "a brief answer please" |}
            demo_user)
         (demo_store,
          {| response := ""; cr_plan := None; cr_action := NONE;
             cr_change_summary := None; cr_plan_summary := None;
             cr_conversation_summary := None; cr_turn_count := 0;
             plan_version := None; awaiting_confirmation := false |}).

Lemma failed_chat_ok :
  chat failing_env demo_store
    {| req_session_id := "s1"; message := "a brief answer please" |} demo_user
  = Ok (failed_chat.1, failed_chat.2).
Proof. vm_compute. reflexivity. Qed.

Lemma chat_then_history_witness :
  exists front,
    get_history failed_chat.1 "s1" demo_user =
      Ok (front ++
          [ {| h_role := "user"; h_content := "a brief answer please";
               h_timestamp := 1 |};
            {| h_role := "assistant"; h_content := fallback;
               h_timestamp := 3 |} ]) /\
    response failed_chat.2 = chat_fallback.
Proof.
  assert (Hget : demo_store !! "s1" = Some (new_session "s1" "u1"))
    by (vm_compute; reflexivity).
  destruct (chat_then_history _ _ _ _ _ _ _ _ _ _ _ Hget eq_refl
              degraded_turn_ok failed_chat_ok)
    as (front & reply & Hh & _ & Hdegraded).
  assert (Hnone : usable_response degraded_turn.2 degraded_turn.1.2 = None)
    by (vm_compute; reflexivity).
  destruct (Hdegraded Hnone) as (-> & Hresp & _).
  exists front. split; [exact Hh | exact Hresp].
Defined.

(** ** The prompt of [generate_node] *)

Definition lc_of_message (m : Message) : LcMessage :=
  match role m with
  | USER => HumanMessage (content m)
  | ASSISTANT => AIMessage (content m)
  | SYSTEM => SystemMessage (content m)
  end.

Definition unblocked (msgs : list Message) : list Message :=
  List.filter (fun msg => negb (is_blocked msg)) msgs.

Lemma lc_of_context_entry m : lc_of_context (context_entry m) = [lc_of_message m].
Proof. unfold lc_of_context, lc_of_message. now destruct m as [[] c t b]. Qed.

Lemma flat_map_lc_entries msgs :
  flat_map lc_of_context (map context_entry msgs) = map lc_of_message msgs.
Proof.
  induction msgs as [|m msgs IH]; simpl; [reflexivity|].
  now rewrite lc_of_context_entry, IH.
Qed.

Lemma history_part s :
  flat_map lc_of_context (build_context_messages s) =
    (if truthy_opt (compressed_context s)
     then [ SystemMessage ("[Compressed prior context]" +:+ nl
                           +:+ default "" (compressed_context s)) ]
     else [])
    ++ map lc_of_message (unblocked (messages s)).
Proof.
  unfold build_context_messages. rewrite context_loop, flat_map_app.
  fold (unblocked (messages s)). rewrite flat_map_lc_entries. f_equal.
  destruct (compressed_context s) as [cc|]; simpl; [|reflexivity].
  now destruct (truthy cc).
Qed.

(** X15: the conversation handed to the model ends with one message per
    unblocked message of the log, in order, as a human, an AI or a
    system message according to its role, after the digest (when there
    is a non-empty one) as a system message.  The dispatch on the role
    loses no message, and no blocked message is handed over. *)
Theorem lc_messages_history s :
  exists notes,
    lc_messages s =
      SystemPromptMessage :: notes
      ++ (if truthy_opt (compressed_context s)
          then [ SystemMessage ("[Compressed prior context]" +:+ nl
                                +:+ default "" (compressed_context s)) ]
          else [])
      ++ map lc_of_message (unblocked (messages s)) /\
    length notes =
      ((if is_Some_b (current_plan s) then 1 else 0)
       + (if is_Some_b (pending_plan s) then 1 else 0)
       + (if bool_decide (user_preferences s = ∅) then 0 else 1))%nat.
Proof.
  exists (match current_plan s with
          | Some p => [CurrentPlanMessage p]
          | None => []
          end
          ++ match pending_plan s with
             | Some p => [PendingPlanMessage p]
             | None => []
             end
          ++ (if bool_decide (user_preferences s = ∅) then []
              else [PreferencesMessage (user_preferences s)])).
  split.
  - unfold lc_messages. rewrite history_part.
    change ([SystemPromptMessage] ++ ?l) with (SystemPromptMessage :: l).
    f_equal. now rewrite <- !app_assoc.
  - rewrite !length_app.
    destruct (current_plan s), (pending_plan s),
      (bool_decide (user_preferences s = ∅)); reflexivity.
Qed.





(** ** More on preference extraction *)

Lemma ascii_lower_idempotent c : ascii_lower (ascii_lower c) = ascii_lower c.
Proof. destruct c as [[] [] [] [] [] [] [] []]; reflexivity. Qed.

Lemma lower_idempotent text : lower (lower text) = lower text.
Proof.
  induction text as [|c text IH]; simpl; [reflexivity|].
  now rewrite ascii_lower_idempotent, IH.
Qed.

Lemma last_matching_in lowered keywords wv :
  last (matching lowered keywords) = Some wv -> wv ∈ keywords.
Proof.
  intros H. apply last_Some_elem_of in H. unfold matching in H.
  apply list_elem_of_In, filter_In in H as [H _]. now apply list_elem_of_In.
Qed.

Lemma extract_preferences_lookup text existing k :
  extract_preferences text existing !! k =
    if decide ("tone" = k)
    then match last (matching (lower text)
                       [ ("formal", "formal"); ("casual", "casual");
                         ("professional", "formal"); ("friendly", "casual") ])
         with
         | Some wv => Some wv.2
         | None => existing !! k
         end
    else if decide ("detail_level" = k)
    then match last (matching (lower text)
                       [ ("detailed", "detailed"); ("brief", "brief");
                         ("concise", "brief"); ("verbose", "detailed");
                         ("short", "brief") ])
         with
         | Some wv => Some wv.2
         | None => existing !! k
         end
    else existing !! k.
Proof.
  rewrite extract_preferences_unfold, !scan_keywords_lookup.
  destruct (decide ("tone" = k)) as [<-|]; [|reflexivity].
  destruct (last _); [reflexivity|].
  now rewrite decide_False by discriminate.
Qed.

(** X17: extracting preferences is stable.  Applying it again with the
    same text changes nothing more; it never removes a key that
    [existing] has; and a value it returns is either the one [existing]
    had under that key or, under "detail_level", one of "detailed" and
    "brief" and, under "tone", one of "formal" and "casual". *)
Theorem extract_preferences_stable text existing :
  extract_preferences text (extract_preferences text existing)
    = extract_preferences text existing /\
  (forall k, is_Some (existing !! k) ->
             is_Some (extract_preferences text existing !! k)) /\
  (forall k v, extract_preferences text existing !! k = Some v ->
     existing !! k = Some v \/
     (k = "detail_level" /\ (v = "detailed" \/ v = "brief")) \/
     (k = "tone" /\ (v = "formal" \/ v = "casual"))).
Proof.
  split; [|split].
  - apply map_eq. intros k. rewrite !extract_preferences_lookup.
    destruct (decide ("tone" = k)); [now destruct (last _)|].
    destruct (decide ("detail_level" = k)); [now destruct (last _)|].
    reflexivity.
  - intros k Hk. rewrite extract_preferences_lookup.
    destruct (decide ("tone" = k)); [now destruct (last _); eauto|].
    destruct (decide ("detail_level" = k)); [now destruct (last _); eauto|].
    exact Hk.
  - intros k v. rewrite extract_preferences_lookup.
    destruct (decide ("tone" = k)) as [<-|_].
    { destruct (last _) as [wv|] eqn:Hlast; [|now left].
      intros [= <-]. right. right. split; [reflexivity|].
      apply last_matching_in in Hlast.
      repeat (apply elem_of_cons in Hlast as [->|Hlast]; [simpl; auto|]).
      now apply elem_of_nil in Hlast. }
    destruct (decide ("detail_level" = k)) as [<-|_]; [|now left].
    destruct (last _) as [wv|] eqn:Hlast; [|now left].
    intros [= <-]. right. left. split; [reflexivity|].
    apply last_matching_in in Hlast.
    repeat (apply elem_of_cons in Hlast as [->|Hlast]; [simpl; auto|]).
    now apply elem_of_nil in Hlast.
Qed.

Lemma extract_preferences_stable_witness :
  is_Some (extract_preferences "make it FORMAL" {[ "language" := "pt" ]}
             !! "language").
Proof.
  destruct (extract_preferences_stable "make it FORMAL" {[ "language" := "pt" ]})
    as (_ & Hkeep & _).
  apply Hkeep. exists "pt". reflexivity.
Defined.

(** X18: only the lowered text matters.  Two texts that differ in the
    case of their ASCII letters give the same preferences; in
    particular a text and its lowered form do. *)
Theorem extract_preferences_ignores_case text1 text2 existing :
  (lower text1 = lower text2 ->
   extract_preferences text1 existing = extract_preferences text2 existing) /\
  extract_preferences (lower text1) existing
    = extract_preferences text1 existing.
Proof.
  assert (H : forall a b, lower a = lower b ->
            extract_preferences a existing = extract_preferences b existing).
  { intros a b Hab. rewrite !extract_preferences_unfold. now rewrite Hab. }
  split; [apply H|]. apply H, lower_idempotent.
Qed.

Lemma extract_preferences_ignores_case_witness :
  extract_preferences "Be BRIEF" ∅ = extract_preferences "be brief" ∅.
Proof.
  destruct (extract_preferences_ignores_case "Be BRIEF" "be brief" ∅) as [H _].
  apply H. reflexivity.
Defined.

(** ** backend/context_manager.py: token estimates and the plan note *)

(** [len(text) // CHARS_PER_TOKEN]; the length is not negative, so the
    floor division is [Z.div]. *)
Definition _estimate_tokens (text : string) : Z := len text / CHARS_PER_TOKEN.

Definition _estimate_message_tokens (msgs : list Message) : Z :=
  sum_Z (map (fun m => _estimate_tokens (content m)) msgs).

Lemma estimate_tokens_bounds text :
  0 <= _estimate_tokens text /\
  CHARS_PER_TOKEN * _estimate_tokens text <= len text /\
  len text <= CHARS_PER_TOKEN * _estimate_tokens text + 3.
Proof.
  unfold _estimate_tokens, CHARS_PER_TOKEN, len.
  pose proof (Z.div_mod (Z.of_nat (String.length text)) 4) as Hdm.
  pose proof (Z.mod_pos_bound (Z.of_nat (String.length text)) 4) as Hm.
  assert (0 <= Z.of_nat (String.length text) / 4) by (apply Z.div_pos; lia).
  lia.
Qed.

(** X19: the token estimate never overshoots.  Four times the estimate
    of a list of messages is at most their number of characters and
    falls short of it by at most three characters per message; so once
    the estimate, in characters, reaches the compression threshold, the
    session's character total has reached it too. *)
Theorem estimate_message_tokens_bounds s :
  let est := _estimate_message_tokens (messages s) in
  let chars := sum_Z (map (fun m => len (content m)) (messages s)) in
  0 <= est /\
  CHARS_PER_TOKEN * est <= chars /\
  chars <= CHARS_PER_TOKEN * est + 3 * Z.of_nat (length (messages s)) /\
  (COMPRESSION_THRESHOLD <= CHARS_PER_TOKEN * est ->
   COMPRESSION_THRESHOLD <= total_chars s).
Proof.
  cbv zeta.
  assert (Hb : forall msgs,
            0 <= _estimate_message_tokens msgs /\
            CHARS_PER_TOKEN * _estimate_message_tokens msgs
              <= sum_Z (map (fun m => len (content m)) msgs) /\
            sum_Z (map (fun m => len (content m)) msgs)
              <= CHARS_PER_TOKEN * _estimate_message_tokens msgs
                 + 3 * Z.of_nat (length msgs)).
  { unfold _estimate_message_tokens.
    induction msgs as [|m msgs (IH0 & IH1 & IH2)]; simpl map; simpl sum_Z.
    - simpl. unfold CHARS_PER_TOKEN. lia.
    - destruct (estimate_tokens_bounds (content m)) as (H0 & H1 & H2).
      unfold CHARS_PER_TOKEN in *. simpl length. lia. }
  destruct (Hb (messages s)) as (H0 & H1 & H2).
  split; [exact H0|]. split; [exact H1|]. split; [exact H2|].
  intros Hthr. unfold total_chars.
  destruct (compressed_context s) as [cc|]; [|lia].
  destruct (truthy cc); [|lia].
  assert (0 <= len cc) by (unfold len; lia). lia.
Qed.

Lemma estimate_message_tokens_bounds_witness :
  COMPRESSION_THRESHOLD <= total_chars one_long_message.
Proof.
  destruct (estimate_message_tokens_bounds one_long_message) as (_ & _ & _ & H).
  apply H.
  change (messages one_long_message) with [message_of_len USER 24000].
  unfold _estimate_message_tokens, _estimate_tokens, sum_Z.
  cbn [map foldr]. rewrite len_message_of_len by lia.
  vm_compute. discriminate.
Defined.

Definition status_value (st : StepStatus) : string :=
  match st with
  | PENDING => "pending"
  | IN_PROGRESS => "in-progress"
  | COMPLETED => "completed"
  end.

(** The line of one step; the dash before the description is the
    en dash of the source, here its UTF-8 bytes. *)
Definition step_line (step : PlanStep) : string :=
  "- [" +:+ status_value (status step) +:+ "] **" +:+ id step +:+ ": "
  +:+ step_title step +:+ "** – " +:+ description step.

Definition _format_plan_for_context (p : option Plan) : string :=
  match p with
  | None => "No plan has been created yet."
  | Some plan =>
      let lines0 :=
        [ "## Current Plan: " +:+ title plan;
          "**Overview:** " +:+ overview plan;
          "### Steps:" ] in
      let lines :=
        fold_left (fun lines step => lines ++ [step_line step])
          (steps plan) lines0 in
      String.concat nl lines
  end.

Lemma prefix_append n b : String.prefix n (n +:+ b) = true.
Proof.
  induction n as [|c n IH]; simpl; [now destruct b|].
  now destruct (ascii_dec c c).
Qed.

Lemma str_in_here n b : str_in n (n +:+ b) = true.
Proof. destruct n, b; simpl; rewrite ?prefix_append; try reflexivity;
  destruct (ascii_dec _ _); try contradiction; rewrite ?prefix_append;
  reflexivity. Qed.

Lemma str_in_append_r n a b : str_in n b = true -> str_in n (a +:+ b) = true.
Proof.
  intros H. induction a as [|c a IH]; simpl; [exact H|].
  rewrite IH. apply orb_true_r.
Qed.

Lemma prefix_append_l n : forall a b,
  String.prefix n a = true -> String.prefix n (a +:+ b) = true.
Proof.
  induction n as [|c n IH]; intros a b H.
  - now destruct (a +:+ b).
  - destruct a as [|c' a]; simpl in *; [discriminate|].
    destruct (ascii_dec c c'); [now apply IH | discriminate].
Qed.

Lemma str_in_cons n c h :
  str_in n (String c h) = String.prefix n (String c h) || str_in n h.
Proof. reflexivity. Qed.

Lemma str_in_append_l n a b : str_in n a = true -> str_in n (a +:+ b) = true.
Proof.
  induction a as [|c a IH]; intros H.
  - simpl in H. rewrite orb_false_r in H.
    destruct n; [|discriminate]. now destruct b.
  - rewrite str_in_cons in H. apply orb_true_iff in H as [H|H];
      change (String c a +:+ b) with (String c (a +:+ b));
      rewrite str_in_cons.
    + apply (prefix_append_l n (String c a) b) in H.
      change (String c a +:+ b) with (String c (a +:+ b)) in H.
      now rewrite H.
    + rewrite (IH H). apply orb_true_r.
Qed.

Lemma str_in_self n : str_in n n = true.
Proof.
  assert (Hp : String.prefix n n = true).
  { induction n as [|c n IH]; simpl; [reflexivity|].
    now destruct (ascii_dec c c). }
  destruct n; [reflexivity|]. now rewrite str_in_cons, Hp.
Qed.

Lemma str_in_concat n sep (lines : list string) line :
  line ∈ lines -> str_in n line = true ->
  str_in n (String.concat sep lines) = true.
Proof.
  intros Hin Hn. induction lines as [|x xs IH]; [now apply elem_of_nil in Hin|].
  apply elem_of_cons in Hin as [->|Hin].
  - destruct xs as [|y ys]; [exact Hn|].
    change (String.concat sep (x :: y :: ys))
      with (x +:+ sep +:+ String.concat sep (y :: ys)).
    now apply str_in_append_l.
  - destruct xs as [|y ys]; [now apply elem_of_nil in Hin|].
    change (String.concat sep (x :: y :: ys))
      with (x +:+ sep +:+ String.concat sep (y :: ys)).
    apply str_in_append_r, str_in_append_r. now apply IH.
Qed.

Lemma format_plan_lines plan :
  _format_plan_for_context (Some plan) =
  String.concat nl
    ([ "## Current Plan: " +:+ title plan;
       "**Overview:** " +:+ overview plan;
       "### Steps:" ] ++ map step_line (steps plan)).
Proof.
  unfold _format_plan_for_context. f_equal.
  generalize [ "## Current Plan: " +:+ title plan;
               "**Overview:** " +:+ overview plan; "### Steps:" ].
  induction (steps plan) as [|st sts IH]; intros l; simpl.
  - now rewrite app_nil_r.
  - rewrite IH. now rewrite <- app_assoc.
Qed.

(** X20: the plan note leaves nothing out.  For a plan, the text holds
    the plan's title and overview and, for every step, its id, title,
    description and status word; without a plan it is the fixed sentence
    that no plan has been created. *)
Theorem format_plan_shows_every_step plan :
  let text := _format_plan_for_context (Some plan) in
  _format_plan_for_context None = "No plan has been created yet." /\
  str_in (title plan) text = true /\
  str_in (overview plan) text = true /\
  (forall step, step ∈ steps plan ->
     str_in (id step) text = true /\
     str_in (step_title step) text = true /\
     str_in (description step) text = true /\
     str_in ("[" +:+ status_value (status step) +:+ "]") text = true).
Proof.
  cbv zeta. rewrite format_plan_lines.
  split; [reflexivity|]. split; [|split].
  - eapply str_in_concat; [apply list_elem_of_here|].
    apply str_in_append_r, str_in_self.
  - eapply str_in_concat;
      [apply list_elem_of_further, list_elem_of_here|].
    apply str_in_append_r, str_in_self.
  - intros step Hstep.
    assert (Hline : step_line step ∈
              [ "## Current Plan: " +:+ title plan;
                "**Overview:** " +:+ overview plan; "### Steps:" ]
              ++ map step_line (steps plan)).
    { apply elem_of_app. right. now apply list_elem_of_fmap_2. }
    repeat split; (eapply str_in_concat; [exact Hline|]); unfold step_line.
    + do 3 apply str_in_append_r. apply str_in_here.
    + do 5 apply str_in_append_r. apply str_in_here.
    + do 7 apply str_in_append_r. apply str_in_self.
    + destruct (status step); simpl status_value.
      * apply (str_in_append_r "[pending]" "- "
                 ("[pending]" +:+ " **" +:+ id step +:+ ": "
                  +:+ step_title step +:+ "** – " +:+ description step)).
        apply str_in_here.
      * apply (str_in_append_r "[in-progress]" "- "
                 ("[in-progress]" +:+ " **" +:+ id step +:+ ": "
                  +:+ step_title step +:+ "** – " +:+ description step)).
        apply str_in_here.
      * apply (str_in_append_r "[completed]" "- "
                 ("[completed]" +:+ " **" +:+ id step +:+ ": "
                  +:+ step_title step +:+ "** – " +:+ description step)).
        apply str_in_here.
Qed.

Lemma format_plan_shows_every_step_witness :
  str_in "step-1" (_format_plan_for_context (Some demo_plan)) = true.
Proof.
  destruct (format_plan_shows_every_step demo_plan) as (_ & _ & _ & Hsteps).
  assert (Hin : {| id := "step-1"; step_title := "Book";
                   description := "Book the flights"; status := PENDING |}
                ∈ steps demo_plan) by apply list_elem_of_here.
  exact (proj1 (Hsteps _ Hin)).
Defined.

(** ** backend/auth.py and the auth endpoints of backend/server.py

    bcrypt and the token signer are libraries: [hashpw], [checkpw] and
    [create_token] are parameters, the salt [gensalt()] draws, the id
    [uuid4()] draws and the clock readings are inputs.  A token carries
    its expiry, so [create_token] takes the clock reading of the moment
    it is called. *)

Module Auth.

Record User := {
  user_id : string;
  email : string;
  hashed_password : string;
  display_name : option string;
  created_at : Z
}.

Record UserStore := {
  _users : gmap string User;
  _emails : gmap string string
}.

Definition empty_store : UserStore := {| _users := ∅; _emails := ∅ |}.

Definition get_by_id (uid : string) (st : UserStore) : option User :=
  _users st !! uid.

Definition get_by_email (e : string) (st : UserStore) : option User :=
  match _emails st !! lower e with
  | Some uid => if truthy uid then _users st !! uid else None
  | None => None
  end.

Definition create (user : User) (st : UserStore) : UserStore :=
  {| _users := <[user_id user := user]> (_users st);
     _emails := <[lower (email user) := user_id user]> (_emails st) |}.

Definition exists_email (e : string) (st : UserStore) : bool :=
  is_Some_b (_emails st !! lower e).

Record RegisterRequest := {
  rr_email : string;
  rr_password : string;
  rr_display_name : option string
}.

Record LoginRequest := {
  lr_email : string;
  lr_password : string
}.

Record AuthResponse := {
  token : string;
  auth_user_id : string;
  auth_email : string;
  auth_display_name : option string
}.

(** [password.encode("utf-8")[:72]] *)
Definition first_72 (password : string) : string :=
  String.substring 0 72 password.

Section Endpoints.
Variable hashpw : string -> string -> string.
Variable checkpw : string -> string -> bool.
Variable create_token : string -> string -> Z -> string.

Definition hash_password (password salt : string) : string :=
  hashpw (first_72 password) salt.

Definition verify_password (plain hashed : string) : bool :=
  checkpw (first_72 plain) hashed.

Definition register (req : RegisterRequest) (uuid salt : string)
    (now token_now : Z) (user_store : UserStore)
    : result (UserStore * AuthResponse) :=
  if exists_email (rr_email req) user_store
  then Raise (HTTPException 409 "Email already registered.")
  else
    let user :=
      {| user_id := uuid;
         email := lower (rr_email req);
         hashed_password := hash_password (rr_password req) salt;
         display_name := rr_display_name req;
         created_at := now |} in
    let user_store' := create user user_store in
    let token := create_token (user_id user) (email user) token_now in
    Ok (user_store',
        {| token := token; auth_user_id := user_id user;
           auth_email := email user;
           auth_display_name := display_name user |}).

Definition login (req : LoginRequest) (token_now : Z)
    (user_store : UserStore) : result AuthResponse :=
  match get_by_email (lr_email req) user_store with
  | None => Raise (HTTPException 401 "Invalid email or password.")
  | Some user =>
      if verify_password (lr_password req) (hashed_password user)
      then
        let token := create_token (user_id user) (email user) token_now in
        Ok {| token := token; auth_user_id := user_id user;
              auth_email := email user;
              auth_display_name := display_name user |}
      else Raise (HTTPException 401 "Invalid email or password.")
  end.

End Endpoints.

End Auth.

(** X21: the user store finds a user by email whatever the case of the
    letters.  After [create], every spelling of the user's email that
    lowers to the same text is reported by [exists_email], and
    [get_by_email] returns the user under it, as [get_by_id] does under
    the id; only a user whose id is the empty string is not found by
    email, although stored. *)
Theorem user_store_email_any_case (u : Auth.User) (st : Auth.UserStore) e :
  lower e = lower (Auth.email u) ->
  Auth.exists_email e (Auth.create u st) = true /\
  Auth.get_by_id (Auth.user_id u) (Auth.create u st) = Some u /\
  (Auth.user_id u <> "" -> Auth.get_by_email e (Auth.create u st) = Some u) /\
  (Auth.user_id u = "" -> Auth.get_by_email e (Auth.create u st) = None).
Proof.
  intros He.
  unfold Auth.exists_email, Auth.get_by_email, Auth.get_by_id, Auth.create.
  simpl. rewrite He, !lookup_insert_eq. repeat split.
  - intros Hne. destruct (Auth.user_id u); [now destruct Hne | reflexivity].
  - now intros ->.
Qed.

Definition demo_account : Auth.User :=
  {| Auth.user_id := "id-1"; Auth.email := "ann@example.org";
     Auth.hashed_password := "h"; Auth.display_name := None;
     Auth.created_at := 0 |}.

Lemma user_store_email_any_case_witness :
  Auth.get_by_email "Ann@Example.ORG" (Auth.create demo_account Auth.empty_store)
  = Some demo_account.
Proof.
  destruct (user_store_email_any_case demo_account Auth.empty_store
              "Ann@Example.ORG" eq_refl) as (_ & _ & Hfound & _).
  apply Hfound. discriminate.
Defined.

Section AuthFacts.
Variable hashpw : string -> string -> string.
Variable checkpw : string -> string -> bool.
Variable create_token : string -> string -> Z -> string.

(** X22: an email can be registered once.  After a successful
    [register], registering again with an email that differs at most in
    the case of its letters is refused with 409, whatever the password,
    the id and the salt drawn, and the store is as the first
    registration left it. *)
Theorem register_once req1 uuid1 salt1 now1 tnow1 st st1 resp1 :
  Auth.register hashpw create_token req1 uuid1 salt1 now1 tnow1 st
    = Ok (st1, resp1) ->
  forall req2 uuid2 salt2 now2 tnow2,
    lower (Auth.rr_email req2) = lower (Auth.rr_email req1) ->
    Auth.register hashpw create_token req2 uuid2 salt2 now2 tnow2 st1
    = Raise (HTTPException 409 "Email already registered.").
Proof.
  unfold Auth.register.
  destruct (Auth.exists_email (Auth.rr_email req1) st); [discriminate|].
  intros [= <- _] req2 uuid2 salt2 now2 tnow2 He.
  unfold Auth.exists_email, Auth.create. simpl.
  now rewrite He, lower_idempotent, lookup_insert_eq.
Qed.

(** X23: logging in after registering.  If [checkpw] accepts a password
    against its own hash, a user registered with a non-empty id can log
    in with any spelling of the email that lowers to the same text and
    any password that agrees with the registered one on its first 72
    bytes; the answer names the id given at registration and the lowered
    email, with a token made for them at the time of the login.  An
    unknown email and a rejected password are refused with the same 401
    answer. *)
Theorem login_after_register req uuid salt now tnow st st1 resp1 :
  (forall password s, checkpw password (hashpw password s) = true) ->
  uuid <> "" ->
  Auth.register hashpw create_token req uuid salt now tnow st
    = Ok (st1, resp1) ->
  (forall e password login_now,
     lower e = lower (Auth.rr_email req) ->
     Auth.first_72 password = Auth.first_72 (Auth.rr_password req) ->
     exists resp,
       Auth.login checkpw create_token
         {| Auth.lr_email := e; Auth.lr_password := password |} login_now st1
         = Ok resp /\
       Auth.auth_user_id resp = uuid /\
       Auth.auth_email resp = lower (Auth.rr_email req) /\
       Auth.token resp
         = create_token uuid (lower (Auth.rr_email req)) login_now) /\
  (forall lreq login_now,
     Auth.get_by_email (Auth.lr_email lreq) st1 = None \/
     (exists u, Auth.get_by_email (Auth.lr_email lreq) st1 = Some u /\
        Auth.verify_password checkpw (Auth.lr_password lreq)
          (Auth.hashed_password u) = false) ->
     Auth.login checkpw create_token lreq login_now st1
     = Raise (HTTPException 401 "Invalid email or password.")).
Proof.
  intros Hbcrypt Hid. unfold Auth.register.
  destruct (Auth.exists_email (Auth.rr_email req) st); [discriminate|].
  intros [= <- <-]. split.
  - intros e password login_now He Hp.
    unfold Auth.login, Auth.get_by_email, Auth.create.
    simpl. rewrite He, lower_idempotent, !lookup_insert_eq.
    destruct uuid as [|c rest]; [now destruct Hid|]. simpl truthy. cbv iota.
    simpl. unfold Auth.verify_password, Auth.hash_password.
    rewrite Hp, Hbcrypt. eexists. repeat split.
  - intros lreq login_now [Hnone|(u & Hu & Hv)]; unfold Auth.login.
    + now rewrite Hnone.
    + now rewrite Hu, Hv.
Qed.

End AuthFacts.

(** A toy password hash for the examples: the hash is the password
    followed by the salt, and checking looks for the password in front. *)
Definition toy_hashpw (password salt : string) : string := password +:+ salt.
Definition toy_checkpw (password hashed : string) : bool :=
  String.prefix password hashed.
Definition toy_token (uid e : string) (now : Z) : string :=
  uid +:+ ":" +:+ e +:+ (if now <? 100 then ":early" else ":late").

Definition ann_request : Auth.RegisterRequest :=
  {| Auth.rr_email := "Ann@Example.org"; Auth.rr_password := "secret";
     Auth.rr_display_name := None |}.

Definition ann_registered : Auth.UserStore * Auth.AuthResponse :=
  get_ok (Auth.register toy_hashpw toy_token ann_request "id-1" "salt" 0 1
            Auth.empty_store)
         (Auth.empty_store,
          {| Auth.token := ""; Auth.auth_user_id := ""; Auth.auth_email := "";
             Auth.auth_display_name := None |}).

Lemma ann_registered_ok :
  Auth.register toy_hashpw toy_token ann_request "id-1" "salt" 0 1
    Auth.empty_store
  = Ok (ann_registered.1, ann_registered.2).
Proof. vm_compute. reflexivity. Qed.

Lemma register_once_witness :
  Auth.register toy_hashpw toy_token
    {| Auth.rr_email := "ANN@EXAMPLE.ORG"; Auth.rr_password := "other";
       Auth.rr_display_name := None |} "id-2" "pepper" 1 2 ann_registered.1
  = Raise (HTTPException 409 "Email already registered.").
Proof.
  apply (register_once toy_hashpw toy_token ann_request "id-1" "salt" 0 1
           Auth.empty_store ann_registered.1 ann_registered.2
           ann_registered_ok).
  reflexivity.
Defined.

Lemma login_after_register_witness :
  exists resp,
    Auth.login toy_checkpw toy_token
      {| Auth.lr_email := "ann@EXAMPLE.org"; Auth.lr_password := "secret" |}
      500 ann_registered.1 = Ok resp /\
    Auth.auth_user_id resp = "id-1" /\
    Auth.token resp = "id-1:ann@example.org:late".
Proof.
  assert (Hbcrypt : forall password s,
            toy_checkpw password (toy_hashpw password s) = true).
  { intros password s. apply prefix_append. }
  assert (Hid : "id-1" <> "") by discriminate.
  destruct (login_after_register toy_hashpw toy_checkpw toy_token
              ann_request "id-1" "salt" 0 1 Auth.empty_store
              ann_registered.1 ann_registered.2 Hbcrypt Hid ann_registered_ok)
    as [Hlogin _].
  destruct (Hlogin "ann@EXAMPLE.org" "secret" 500 eq_refl eq_refl)
    as (resp & Hok & Huid & _ & Htoken).
  exists resp. split; [exact Hok|]. split; [exact Huid | exact Htoken].
Defined.

(** ** frontend/app.py: what the client keeps of a chat response

    The Streamlit script keeps its own copy of the plan state in
    [st.session_state] and updates it from the JSON of each chat
    response.  [handle_chat] is that update, from the moment the user
    submits a message; the answer of the versions endpoint, which the
    script asks only when [plan_version] is set, is the argument
    [versions]. *)

(** The response's flag, under a name the client's own field of the same
    name does not hide. *)
Definition response_awaiting (data : ChatResponse) : bool :=
  awaiting_confirmation data.

Module Frontend.

Record State := {
  session_id : string;
  messages : list (string * string);
  current_plan : option Plan;
  plan_versions : list PlanVersion;
  turn_count : Z;
  plan_summary : option string;
  conversation_summary : option string;
  last_change_summary : option string;
  pending_plan : option Plan;
  awaiting_confirmation : bool
}.

(** The state [init_session] sets up for a new backend session. *)
Definition init_session (sid : string) : State :=
  {| session_id := sid; messages := []; current_plan := None;
     plan_versions := []; turn_count := 0; plan_summary := None;
     conversation_summary := None; last_change_summary := None;
     pending_plan := None; awaiting_confirmation := false |}.

Definition truthy_int (o : option Z) : bool :=
  match o with
  | Some n => negb (n =? 0)
  | None => false
  end.

Definition handle_chat (user_input : string) (chat_result : result ChatResponse)
    (versions : result (list PlanVersion)) (st : State) : State :=
  (* Show user message immediately *)
  let messages1 := messages st ++ [("user", user_input)] in
  match chat_result with
  | Raise _ =>
      {| session_id := session_id st; messages := messages1;
         current_plan := current_plan st; plan_versions := plan_versions st;
         turn_count := turn_count st; plan_summary := plan_summary st;
         conversation_summary := conversation_summary st;
         last_change_summary := last_change_summary st;
         pending_plan := pending_plan st;
         awaiting_confirmation := awaiting_confirmation st |}
  | Ok data =>
      let assistant_msg := response data in
      (* Update local state *)
      let messages2 := messages1 ++ [("assistant", assistant_msg)] in
      let '(current1, pending1) :=
        match cr_plan data with
        | Some p =>
            match cr_action data with
            | PROPOSE => (current_plan st, Some p)
            | CREATE => (Some p, None)
            | UPDATE => (Some p, pending_plan st)
            | NONE => (Some p, pending_plan st)
            end
        | None => (current_plan st, pending_plan st)
        end in
      {| session_id := session_id st; messages := messages2;
         current_plan := current1;
         plan_versions :=
           if truthy_int (plan_version data)
           then match versions with
                | Ok vs => vs
                | Raise _ => plan_versions st
                end
           else plan_versions st;
         turn_count := cr_turn_count data;
         plan_summary :=
           if truthy_opt (cr_plan_summary data) then cr_plan_summary data
           else plan_summary st;
         conversation_summary :=
           if truthy_opt (cr_conversation_summary data)
           then cr_conversation_summary data
           else conversation_summary st;
         last_change_summary :=
           if truthy_opt (cr_change_summary data) then cr_change_summary data
           else last_change_summary st;
         pending_plan := pending1;
         awaiting_confirmation := response_awaiting data |}
  end.

End Frontend.

Lemma run_agent_plans env s input s' agent_resp err :
  run_agent env s input = Ok (s', agent_resp, err) ->
  match usable_response err agent_resp with
  | Some a =>
      match action a, plan a with
      | PROPOSE, Some p =>
          current_plan s' = current_plan s /\ pending_plan s' = Some p /\
          plan_versions s' = plan_versions s
      | CREATE, Some p =>
          current_plan s' = Some p /\ pending_plan s' = None /\
          exists pv, plan_versions s' = plan_versions s ++ [pv]
      | UPDATE, Some p =>
          current_plan s' = Some p /\ pending_plan s' = pending_plan s /\
          exists pv, plan_versions s' = plan_versions s ++ [pv]
      | _, _ => plan_state s' = plan_state s
      end
  | None => plan_state s' = plan_state s
  end.
Proof.
  intros H. destruct (run_agent_stages _ _ _ _ _ _ H) as (s4 & Hc & ->).
  destruct (maybe_compress_frame _ _ _ _ Hc) as [Hp _].
  unfold plan_state in Hp. simpl in Hp. injection Hp as Hc4 Hp4 Hv4.
  unfold postprocess_node. simpl.
  destruct (usable_response err agent_resp) as [a|]; simpl;
    [|unfold plan_state; simpl; congruence].
  unfold apply_action.
  destruct (action a), (plan a) as [p|],
    (truthy_opt (ar_conversation_summary a)); simpl;
    unfold plan_state; simpl; rewrite ?Hc4, ?Hp4, ?Hv4;
    repeat split; eauto.
Qed.

Lemma chat_awaiting env store sid msg user s s' agent_resp err store' resp :
  store !! sid = Some s ->
  run_agent env s msg = Ok (s', agent_resp, err) ->
  chat env store {| req_session_id := sid; message := msg |} user
    = Ok (store', resp) ->
  awaiting_confirmation resp =
    match usable_response err agent_resp with
    | Some _ => is_Some_b (pending_plan s')
    | None => false
    end.
Proof.
  intros Hs Hrun. unfold chat. simpl. rewrite Hs.
  destruct (bool_decide _); [|discriminate]. rewrite Hrun. simpl.
  destruct (usable_response err agent_resp); now intros [= _ <-].
Qed.

Lemma run_agent_versions_grow env s input s' agent_resp err :
  run_agent env s input = Ok (s', agent_resp, err) ->
  plan_versions s' = [] -> plan_versions s = [].
Proof.
  intros H Hnil. pose proof (run_agent_plans _ _ _ _ _ _ H) as Hp.
  destruct (usable_response err agent_resp) as [a|];
    [destruct (action a), (plan a)|]; unfold plan_state in Hp;
    try (injection Hp as _ _ <-; exact Hnil);
    destruct Hp as (_ & _ & Hv); try (rewrite <- Hv; exact Hnil);
    destruct Hv as [pv Hv]; rewrite Hv in Hnil;
    now apply app_eq_nil in Hnil as [_ Hnil].
Qed.

Lemma client_versions_choice s' (kept : list PlanVersion) :
  (if Frontend.truthy_int (versions_count s') then plan_versions s' else kept)
  = if is_nil (plan_versions s') then kept else plan_versions s'.
Proof.
  unfold versions_count. destruct (plan_versions s') as [|pv pvs]; reflexivity.
Qed.

(** X24: the client's copy of the plan state follows the server's.  If
    before a chat turn the client holds the session's [current_plan],
    [pending_plan] and [plan_versions], then after a completed turn,
    having read the versions endpoint when told to, it holds those of
    the saved session again, and its turn count is the session's.  The
    flag the client shows a pending plan by is the one of the response:
    on a turn with a usable decision it is set exactly when a plan is
    pending. *)
Theorem client_follows_server env store sid msg user s store' resp st :
  store !! sid = Some s ->
  session_id s = sid ->
  chat env store {| req_session_id := sid; message := msg |} user
    = Ok (store', resp) ->
  Frontend.current_plan st = current_plan s ->
  Frontend.pending_plan st = pending_plan s ->
  Frontend.plan_versions st = plan_versions s ->
  let st' :=
    Frontend.handle_chat msg (Ok resp) (get_plan_versions store' sid user) st in
  exists s',
    store' !! sid = Some s' /\
    Frontend.current_plan st' = current_plan s' /\
    Frontend.pending_plan st' = pending_plan s' /\
    Frontend.plan_versions st' = plan_versions s' /\
    Frontend.turn_count st' = turn_count s' /\
    Frontend.awaiting_confirmation st' = awaiting_confirmation resp /\
    (cr_action resp <> NONE ->
     (Frontend.awaiting_confirmation st' = true <-> is_Some (pending_plan s'))).
Proof.
  intros Hs Hid Hchat Hcur Hpend Hvers.
  destruct (chat_inv _ _ _ _ _ _ _ Hchat)
    as (s0 & s' & r & e & Hs0 & Hu & Hrun & -> & Htc & Hpv & _ & Hplan & Hact).
  rewrite Hs in Hs0. injection Hs0 as <-.
  pose proof (chat_awaiting _ _ _ _ _ _ _ _ _ _ _ Hs Hrun Hchat) as Haw.
  destruct (run_agent_identity _ _ _ _ _ _ Hrun) as [Hsid Hu'].
  rewrite Hid in Hsid. rewrite Hu in Hu'.
  assert (Hlook : save s' store !! sid = Some s').
  { unfold save. rewrite Hsid. apply lookup_insert_eq. }
  assert (Hver : get_plan_versions (save s' store) sid user
                 = Ok (plan_versions s')).
  { unfold get_plan_versions. rewrite Hlook.
    now rewrite bool_decide_eq_true_2 by exact Hu'. }
  pose proof (run_agent_plans _ _ _ _ _ _ Hrun) as Hplans.
  pose proof (run_agent_versions_grow _ _ _ _ _ _ Hrun) as Hgrow.
  cbv zeta. exists s'. split; [exact Hlook|].
  assert (Hpair :
    match cr_plan resp with
    | Some p =>
        match cr_action resp with
        | PROPOSE => (Frontend.current_plan st, Some p)
        | CREATE => (Some p, None)
        | UPDATE => (Some p, Frontend.pending_plan st)
        | NONE => (Some p, Frontend.pending_plan st)
        end
    | None => (Frontend.current_plan st, Frontend.pending_plan st)
    end = (current_plan s', pending_plan s')).
  { rewrite Hplan, Hact, Hcur, Hpend.
    destruct (usable_response e r) as [a|].
    - destruct (action a), (plan a) as [p|]; unfold plan_state in Hplans;
        try (injection Hplans as Hc' Hp' _; rewrite <- Hc', <- Hp';
             now destruct (current_plan s'));
        destruct Hplans as (Hc' & Hp' & _); now rewrite Hc', Hp'.
    - unfold plan_state in Hplans. injection Hplans as Hc' Hp' _.
      rewrite <- Hc', <- Hp'. now destruct (current_plan s'). }
  unfold Frontend.handle_chat. rewrite Hver, Hpair. simpl.
  split; [reflexivity|]. split; [reflexivity|]. split; [|split; [exact Htc|]].
  - rewrite Hpv, client_versions_choice.
    destruct (plan_versions s') eqn:Hnil; simpl; [|reflexivity].
    now rewrite Hvers, Hgrow.
  - split; [reflexivity|]. intros Hne. unfold response_awaiting. rewrite Haw.
    destruct (usable_response e r) as [a|]; [|now destruct Hne].
    destruct (pending_plan s'); simpl; split; try discriminate; eauto.
    intros [x Hx]. discriminate.
Qed.

Lemma client_follows_server_witness :
  Frontend.pending_plan
    (Frontend.handle_chat "hello" (Ok proposed_chat.2)
       (get_plan_versions proposed_chat.1 "s1" demo_user)
       (Frontend.init_session "s1"))
  = Some demo_plan.
Proof.
  assert (Hget : demo_store !! "s1" = Some (new_session "s1" "u1"))
    by (vm_compute; reflexivity).
  destruct (client_follows_server _ _ _ _ _ _ _ _ (Frontend.init_session "s1")
              Hget eq_refl proposed_chat_ok eq_refl eq_refl eq_refl)
    as (s' & Hlook & _ & Hpending & _).
  rewrite Hpending.
  assert (Hs' : proposed_chat.1 !! "s1"
                = Some (set_user_preferences ∅ proposed_turn.1.1))
    by (vm_compute; reflexivity).
  rewrite Hlook in Hs'. injection Hs' as ->. vm_compute. reflexivity.
Defined.

(** ** Creating a session, and the version a turn reports *)

(** X25: a session made by [create_session] belongs to its creator and
    starts empty.  The session endpoint shows turn count 0, no plan, no
    versions and no digest; every session stored under another id is
    untouched; and the creator's first chat turn on it completes for
    every behaviour of the language model, with turn count 1, while any
    other user is refused with 403. *)
Theorem create_session_then_chat uuid user store env msg :
  let store1 := (create_session uuid user store).1 in
  (create_session uuid user store).2 = uuid /\
  (forall k, k <> uuid -> store1 !! k = store !! k) /\
  get_session store1 uuid user =
    Ok {| si_session_id := uuid; si_turn_count := 0;
          si_current_plan := None; si_plan_versions := [];
          si_user_preferences := ∅; si_conversation_summary := None;
          has_compressed_context := false |} /\
  (exists store2 resp,
     chat env store1 {| req_session_id := uuid; message := msg |} user
       = Ok (store2, resp) /\
     cr_turn_count resp = 1) /\
  (forall other, u_user_id other <> u_user_id user ->
     chat env store1 {| req_session_id := uuid; message := msg |} other
     = Raise (HTTPException 403 "Access denied.")).
Proof.
  cbv zeta. unfold create_session. simpl.
  assert (Hlook : save (new_session uuid (u_user_id user)) store !! uuid
                  = Some (new_session uuid (u_user_id user))).
  { unfold save. simpl. apply lookup_insert_eq. }
  split; [reflexivity|]. split.
  { intros k Hk. unfold save. simpl. now apply lookup_insert_ne. }
  split.
  { unfold get_session. rewrite Hlook. simpl.
    now rewrite bool_decide_eq_true_2. }
  split.
  - assert (Hlen : (length (messages (new_session uuid (u_user_id user))) <= 3)%nat)
      by (simpl; lia).
    assert (Hrun : exists s' r e,
              run_agent env (new_session uuid (u_user_id user)) msg
              = Ok (s', r, e) /\ turn_count s' = 1).
    { unfold run_agent. rewrite preprocess_node_ingested.
      rewrite maybe_compress_nothing_useful;
        [|simpl; unfold keep_recent; lia | reflexivity].
      simpl bind. do 3 eexists. split; [reflexivity|].
      now rewrite postprocess_node_turn_count, generate_node_session. }
    destruct Hrun as (s' & r & e & Hrun & Htc).
    unfold chat. simpl req_session_id. rewrite Hlook. simpl user_id.
    rewrite bool_decide_eq_true_2 by reflexivity.
    simpl message. rewrite Hrun. simpl.
    destruct (usable_response e r); do 2 eexists; (split; [reflexivity|]);
      exact Htc.
  - intros other Hother. unfold chat. simpl req_session_id. rewrite Hlook.
    simpl user_id. rewrite bool_decide_eq_false_2; [reflexivity|].
    intros [= Heq]. now apply Hother.
Qed.

Lemma create_session_then_chat_witness :
  chat raising_env (create_session "s5" demo_user demo_store).1
    {| req_session_id := "s5"; message := "hello" |} other_user
  = Raise (HTTPException 403 "Access denied.").
Proof.
  destruct (create_session_then_chat "s5" demo_user demo_store raising_env
              "hello") as (_ & _ & _ & _ & Hother).
  apply Hother. discriminate.
Defined.

Lemma apply_action_appends env a x p :
  action a = CREATE \/ action a = UPDATE ->
  plan a = Some p ->
  exists pv,
    plan_versions (apply_action env a x) = plan_versions x ++ [pv] /\
    version pv = Z.of_nat (length (plan_versions x)) + 1 /\
    pv_plan pv = p /\
    current_plan (apply_action env a x) = Some p.
Proof.
  intros Ha Hp. unfold apply_action. rewrite Hp.
  destruct Ha as [-> | ->]; eexists; repeat split.
Qed.

(** X26: the version a turn reports is the version it wrote.  After a
    completed chat turn whose usable decision is a CREATE or an UPDATE
    with a plan, the last entry of the session's version log has the
    number the response gives as [plan_version], holds the plan the
    response carries, and that plan is the session's [current_plan]. *)
Theorem chat_reports_written_version env store sid msg user s store' resp :
  store !! sid = Some s ->
  session_id s = sid ->
  chat env store {| req_session_id := sid; message := msg |} user
    = Ok (store', resp) ->
  (cr_action resp = CREATE \/ cr_action resp = UPDATE) ->
  is_Some (cr_plan resp) ->
  exists s' pv,
    store' !! sid = Some s' /\
    last (plan_versions s') = Some pv /\
    plan_version resp = Some (version pv) /\
    cr_plan resp = Some (pv_plan pv) /\
    current_plan s' = cr_plan resp /\
    Z.of_nat (length (plan_versions s'))
      = Z.of_nat (length (plan_versions s)) + 1.
Proof.
  intros Hs Hid Hchat Hact' [p Hp].
  destruct (chat_inv _ _ _ _ _ _ _ Hchat)
    as (s0 & s' & r & e & Hs0 & Hu & Hrun & -> & _ & Hpv & _ & Hplan & Hact).
  rewrite Hs in Hs0. injection Hs0 as <-.
  destruct (run_agent_identity _ _ _ _ _ _ Hrun) as [Hsid _].
  rewrite Hid in Hsid.
  assert (Hlook : save s' store !! sid = Some s').
  { unfold save. rewrite Hsid. apply lookup_insert_eq. }
  destruct (run_agent_stages _ _ _ _ _ _ Hrun) as (s4 & Hc & Hs').
  destruct (maybe_compress_frame _ _ _ _ Hc) as [Hp4 _].
  unfold plan_state in Hp4. simpl in Hp4. injection Hp4 as _ _ Hv4.
  unfold postprocess_node in Hs'. simpl in Hs'.
  destruct (usable_response e r) as [a|];
    [|rewrite Hact in Hact'; destruct Hact'; discriminate].
  rewrite Hact in Hact'.
  assert (Hplan_a : plan a = Some p /\ cr_plan resp = Some p).
  { rewrite Hplan in Hp |- *.
    destruct (action a); destruct Hact'; try discriminate; now split. }
  destruct Hplan_a as [Hplan_a Hresp_p].
  destruct (apply_action_appends env a
              (append_assistant env (response_to_user a) s4) p Hact' Hplan_a)
    as (pv & Hvs & Hnum & Hpvp & Hcur).
  simpl in Hvs, Hnum. rewrite Hv4 in Hvs, Hnum.
  assert (Hfields : plan_versions s' = plan_versions s ++ [pv] /\
                    current_plan s' = Some p).
  { rewrite Hs'. destruct (truthy_opt (ar_conversation_summary a)); simpl;
      now split. }
  destruct Hfields as [Hvs' Hcur'].
  exists s', pv. split; [exact Hlook|].
  split; [rewrite Hvs'; apply last_snoc|].
  assert (Hlen : length (plan_versions s') = S (length (plan_versions s))).
  { rewrite Hvs', length_app. simpl. lia. }
  split.
  { rewrite Hpv. unfold versions_count.
    destruct (plan_versions s') as [|x xs] eqn:Hnil; [discriminate Hlen|].
    simpl is_nil. cbv iota. rewrite Hlen, Hnum. f_equal. lia. }
  split; [now rewrite Hresp_p, Hpvp|].
  split; [now rewrite Hcur', Hresp_p|]. rewrite Hlen. lia.
Qed.

Definition confirming_env : TurnEnv :=
  scripted_env (Ok (Some (demo_response CREATE (Some demo_plan)))).

Definition confirmed_chat : gmap string Session * ChatResponse :=
  get_ok (chat confirming_env demo_store hello demo_user) proposed_chat.

Lemma confirmed_chat_ok :
  chat confirming_env demo_store hello demo_user
  = Ok (confirmed_chat.1, confirmed_chat.2).
Proof. vm_compute. reflexivity. Qed.

Lemma chat_reports_written_version_witness :
  exists s' pv,
    confirmed_chat.1 !! "s1" = Some s' /\
    last (plan_versions s') = Some pv /\
    plan_version confirmed_chat.2 = Some (version pv).
Proof.
  assert (Hget : demo_store !! "s1" = Some (new_session "s1" "u1"))
    by (vm_compute; reflexivity).
  assert (Hact : cr_action confirmed_chat.2 = CREATE
                 \/ cr_action confirmed_chat.2 = UPDATE)
    by (left; vm_compute; reflexivity).
  assert (Hplan : is_Some (cr_plan confirmed_chat.2))
    by (exists demo_plan; vm_compute; reflexivity).
  destruct (chat_reports_written_version _ _ _ _ _ _ _ _ Hget eq_refl
              confirmed_chat_ok Hact Hplan)
    as (s' & pv & Hlook & Hlast & Hnum & _).
  exists s', pv. split; [exact Hlook|]. split; [exact Hlast | exact Hnum].
Defined.
